(** * AKClientLib: the attachment and lifecycle engine of [ak-core.js]

    A shallow embedding of the class catalogs ([AKUiClassesRegistry],
    [AKComponentRegistry]), the instance registry ([AKObjectRegistry]),
    the manager ([AKObjectManager]), the base classes ([AKObject],
    [AKUiElement], [AKComponent]) and the teardown callback
    ([observeDestroy]), together with the helpers of [ak-utils.js] they
    call ([fmt], [assert], [assertFmt], [sameText], [matchText],
    [listAttribute], ...).

    Conventions of the embedding.
    - Names are ASCII strings: [toUpperCase]/[toLowerCase] map the 26
      letters and leave every other character alone.
    - The JS objects used as tables ([#ITEMS], [instances]) are finite
      maps over their own properties; property names inherited from
      [Object.prototype] are outside the model.
    - A JS exception does not roll the state back: a computation returns
      its outcome *and* the state reached ([M]).
    - The document is owned by the host.  An [Element] value is what the
      code reads from it (id, attributes, parent chain); what the code
      does to it (class list changes, listeners, dispatched events,
      aborted controllers) is appended to the [host_log].
    - Classes are descriptors: identity, superclass chain and the data
      returned by the overridable getters [classes] and [_handlers].
      The lifecycle hooks are the ones written in [ak-core.js]. *)

From Stdlib Require Import Ascii String.
From stdpp Require Import gmap strings list fin_maps.

Local Set Warnings "-register-all".

(** ** Strings ([String.prototype] as used by the library) *)

Module Str.

Definition is_lower (c : ascii) : bool :=
  Nat.leb 97 (nat_of_ascii c) && Nat.leb (nat_of_ascii c) 122.
Definition is_upper (c : ascii) : bool :=
  Nat.leb 65 (nat_of_ascii c) && Nat.leb (nat_of_ascii c) 90.

Definition upperChar (c : ascii) : ascii :=
  if is_lower c then ascii_of_nat (nat_of_ascii c - 32) else c.
Definition lowerChar (c : ascii) : ascii :=
  if is_upper c then ascii_of_nat (nat_of_ascii c + 32) else c.

Fixpoint mapChars (f : ascii -> ascii) (s : string) : string :=
  match s with
  | EmptyString => EmptyString
  | String c r => String (f c) (mapChars f r)
  end.

Definition toUpperCase : string -> string := mapChars upperChar.
Definition toLowerCase : string -> string := mapChars lowerChar.

(** [s.startsWith(p)] *)
Fixpoint startsWith (p s : string) : bool :=
  match p, s with
  | EmptyString, _ => true
  | String _ _, EmptyString => false
  | String a p', String b s' => if Ascii.eqb a b then startsWith p' s' else false
  end.

(** [s.indexOf(p)]: [None] stands for -1. *)
Fixpoint indexOf (p s : string) : option nat :=
  if startsWith p s then Some 0
  else match s with
       | EmptyString => None
       | String _ r => S <$> indexOf p r
       end.

(** [s.slice(0, n)] and [s.slice(n)] for n >= 0. *)
Fixpoint sliceTo (n : nat) (s : string) : string :=
  match n, s with
  | S m, String c r => String c (sliceTo m r)
  | _, _ => EmptyString
  end.
Fixpoint sliceFrom (n : nat) (s : string) : string :=
  match n, s with
  | S m, String _ r => sliceFrom m r
  | _, _ => s
  end.

(** [s.split(' ')]: always at least one piece. *)
Fixpoint splitSpace (s : string) : list string :=
  match s with
  | EmptyString => [EmptyString]
  | String c r =>
      if Ascii.eqb c " "%char then EmptyString :: splitSpace r
      else match splitSpace r with
           | [] => [String c EmptyString]
           | w :: ws => String c w :: ws
           end
  end.

End Str.

(** ** Errors and outcomes *)

Record Error := mkError { err_name : string; err_message : string }.

Inductive Outcome (A : Type) : Type :=
| Return (a : A)
| Throw (e : Error).
Arguments Return {A} a.
Arguments Throw {A} e.

(** ** ak-utils.js *)

(** [String(v)] for the values the library formats: a string or [null]. *)
Definition toStr (v : option string) : string :=
  match v with Some s => s | None => "null" end.

(** [isNonEmptyStr]: [(aString) && typeof aString === 'string']. *)
Definition isNonEmptyStr (v : option string) : bool :=
  match v with Some (String _ _) => true | _ => false end.

(** [namedError]: an [Error] keeps the name "Error" unless a name is given. *)
Definition namedError (aMessage aName : string) : Error :=
  if isNonEmptyStr (Some aName) then mkError aName aMessage
  else mkError "Error" aMessage.

(** [assert(aCondition, aErrMessage)] *)
Definition assert_msg (aCondition : bool) (aErrMessage : string) : Outcome unit :=
  if aCondition then Return tt else Throw (namedError aErrMessage "AssertionFailure").

(** [assert] with its default message. *)
Definition assert (aCondition : bool) : Outcome unit :=
  assert_msg aCondition "Assertion failure.".

(** [spliceString], called with a start that is not negative. *)
Definition spliceString (aString : string) (aStart aCount : nat) (aReplace : option string) : string :=
  Str.sliceTo aStart aString +:+ toStr aReplace +:+ Str.sliceFrom (aStart + aCount) aString.

(** [fmt]: the loop consumes one value per round, so it is a recursion on
    the values. *)
Fixpoint fmt (aString : string) (aValues : list (option string)) : Outcome string :=
  match Str.indexOf "%s" aString with
  | None => Return aString
  | Some pos =>
      match aValues with
      | [] => Throw (namedError "Not enough values to format string." "AssertionFailure")
      | v :: rest => fmt (spliceString aString pos 2 v) rest
      end
  end.

(** [assertFmt]: the message is formatted before the condition is looked
    at (call-by-value), so a failing [fmt] wins over a true condition. *)
Definition assertFmt (aCondition : bool) (aErrMessage : string) (aValues : list (option string)) : Outcome unit :=
  match fmt aErrMessage aValues with
  | Throw e => Throw e
  | Return m => assert_msg aCondition m
  end.

(** [sameText]: both arguments must be strings ([None] is [null]). *)
Definition sameText (aFirst aSecond : option string) : Outcome bool :=
  match aFirst, aSecond with
  | None, _ => Throw (namedError "Assertion failure." "AssertionFailure")
  | Some _, None => Throw (namedError "Assertion failure." "AssertionFailure")
  | Some a, Some b => Return (bool_decide (Str.toUpperCase a = Str.toUpperCase b))
  end.

Fixpoint matchText (aString : option string) (aValues : list string) : Outcome bool :=
  match aValues with
  | [] => Return false
  | v :: rest =>
      match sameText aString (Some v) with
      | Throw e => Throw e
      | Return true => Return true
      | Return false => matchText aString rest
      end
  end.

(** ** The document, as the library reads it *)

Inductive Element : Type := mkElement {
  el_node : nat;                        (* which DOM node this is *)
  el_id : string;                       (* [aElement.id], empty when unset *)
  el_attributes : gmap string string;
  el_parentElement : option Element
}.

Definition getAttribute (aElement : Element) (aName : string) : option string :=
  el_attributes aElement !! aName.

Definition hasAttribute (aElement : Element) (aName : string) : bool :=
  bool_decide (is_Some (el_attributes aElement !! aName)).

(** [listAttribute]: a missing or empty attribute gives no token. *)
Definition listAttribute (aElement : Element) (aAttributeName : string) : list string :=
  match getAttribute aElement aAttributeName with
  | None | Some EmptyString => []
  | Some att => Str.splitSpace att
  end.

(** [Element.prototype.getListAttribute] *)
Definition getListAttribute (aElement : Element) (aQualifiedName : string) : list string :=
  listAttribute aElement aQualifiedName.

Inductive Node : Type :=
| ElementNode (e : Element)
| TextNode (data : string)
| CommentNode (data : string).

Definition ELEMENT_NODE : nat := 1.

Definition nodeType (n : Node) : nat :=
  match n with
  | ElementNode _ => 1
  | TextNode _ => 3
  | CommentNode _ => 8
  end.

Record MutationRecord := mkMutation {
  mut_type : string;
  mut_removedNodes : list Node
}.

(** What the library does to the host, in order. *)
Inductive HostCall : Type :=
| ClassListAdd (node : nat) (tokens : list string)
| ClassListRemove (node : nat) (token : string)
| AddEventListener (node : nat) (event : string) (controller : nat)
| DispatchEvent (node : nat) (event : string)
| Abort (controller : nat).

(** ** Classes and instances *)

(** A class: its identity, its proper ancestors (nearest first, up to
    [AKObject]) and the values of its static getter [classes] and of the
    keys of its [_handlers]. *)
Record AKClass := mkClass {
  cls_id : nat;
  cls_supers : list nat;
  cls_classes : list string;
  cls_handlers : list string
}.

Definition AKObject : AKClass := mkClass 0 [] [] [].
Definition AKUiElement : AKClass := mkClass 1 [0] [] [].
Definition AKComponent : AKClass := mkClass 2 [0] [] [].

(** [isDescendant(aClass, aParentClass)] *)
Definition isDescendant (aClass aParentClass : AKClass) : bool :=
  bool_decide (cls_id aClass = cls_id aParentClass)
  || bool_decide (cls_id aParentClass ∈ cls_supers aClass).

(** [static inheritsFrom] *)
Definition inheritsFrom (this aClass : AKClass) : bool := isDescendant this aClass.

Definition supportedAtts : list string :=
  ["disabled"; "readonly"; "required"; "invalid"; "hidden"].

(** An instance: [new] gives it a fresh reference; [#EL] never changes. *)
Record AKInstance := mkInstance {
  obj_ref : nat;
  obj_class : AKClass;        (* [this.constructor] *)
  obj_el : Element            (* [this.el] *)
}.

(** [AKRegisteredObject] *)
Record AKRegisteredObject := mkRegistered {
  instances : gmap string AKInstance;
  controllers : list nat
}.

(** ** The state of the library *)

Inductive Catalog : Type := AKUiClassesRegistry | AKComponentRegistry.

Record State := mkState {
  ui_items : gmap string AKClass;              (* AKUiClassesRegistry.#ITEMS *)
  component_items : gmap string AKClass;       (* AKComponentRegistry.#ITEMS *)
  class_names : gmap nat string;               (* own static [className], by class *)
  registry_items : gmap string AKRegisteredObject; (* AKObjectRegistry.#ITEMS *)
  next_object : nat;                           (* references handed out by [new] *)
  next_controller : nat;                       (* AbortControllers created *)
  host_log : list HostCall
}.

Definition initial : State := mkState ∅ ∅ ∅ ∅ 0 0 [].

(** Computations: outcome and state reached. *)
Definition M (A : Type) : Type := State -> Outcome A * State.

Definition ret {A} (a : A) : M A := fun s => (Return a, s).
Definition throw {A} (e : Error) : M A := fun s => (Throw e, s).
Definition bind {A B} (m : M A) (k : A -> M B) : M B :=
  fun s => match m s with
           | (Return a, s') => k a s'
           | (Throw e, s') => (Throw e, s')
           end.
Definition lift {A} (o : Outcome A) : M A := fun s => (o, s).
Definition reads {A} (f : State -> A) : M A := fun s => (Return (f s), s).
Definition modify (f : State -> State) : M unit := fun s => (Return tt, f s).

Declare Scope js_scope.
Delimit Scope js_scope with js.
Notation "x <- m ;; k" := (bind m (fun x => k))
  (at level 100, m at next level, right associativity) : js_scope.
Notation "m ;;; k" := (bind m (fun _ => k))
  (at level 100, right associativity) : js_scope.
Local Open Scope js_scope.

(** A call on the host is recorded at the end of the log. *)
Definition logged (c : HostCall) (s : State) : State :=
  mkState (ui_items s) (component_items s) (class_names s) (registry_items s)
          (next_object s) (next_controller s) (host_log s ++ [c]).

Definition log (c : HostCall) : M unit := modify (logged c).

(** The static [className] of a class: its own, or the nearest one up the
    chain; [None] is the [null] of [AKObject]. *)
Fixpoint staticLookup (names : gmap nat string) (chain : list nat) : option string :=
  match chain with
  | [] => None
  | k :: rest =>
      match names !! k with
      | Some n => Some n
      | None => staticLookup names rest
      end
  end.

Definition className (c : AKClass) (s : State) : option string :=
  staticLookup (class_names s) (cls_id c :: cls_supers c).

(** [AKObjectAssert], bound to [AKObject] by the static initialiser. *)
Definition AKAssert (aCondition : bool) : M unit :=
  fun s => (assertFmt aCondition "[%s] - Assertion failure." [className AKObject s], s).

(** The double quote of the messages. *)
Definition dquote : string := String (ascii_of_nat 34) EmptyString.

(** Assignments to [#ITEMS] of the instance registry and to a static
    [className]. *)
Definition set_registry_items (m : gmap string AKRegisteredObject) (s : State) : State :=
  mkState (ui_items s) (component_items s) (class_names s) m
          (next_object s) (next_controller s) (host_log s).

Definition set_class_name (c : AKClass) (n : string) (s : State) : State :=
  mkState (ui_items s) (component_items s) (<[cls_id c := n]> (class_names s))
          (registry_items s) (next_object s) (next_controller s) (host_log s).

(** ** The class catalogs: [AKUiClassesRegistry] and [AKComponentRegistry]

    The two classes have the same body; [k] says which one is meant. *)

Inductive NameArg : Type :=
| OneName (n : string)
| ManyNames (l : list string).

Module ClassRegistry.

Definition items (k : Catalog) (s : State) : gmap string AKClass :=
  match k with
  | AKUiClassesRegistry => ui_items s
  | AKComponentRegistry => component_items s
  end.

Definition set_items (k : Catalog) (m : gmap string AKClass) (s : State) : State :=
  match k with
  | AKUiClassesRegistry =>
      mkState m (component_items s) (class_names s) (registry_items s)
              (next_object s) (next_controller s) (host_log s)
  | AKComponentRegistry =>
      mkState (ui_items s) m (class_names s) (registry_items s)
              (next_object s) (next_controller s) (host_log s)
  end.

Definition label (k : Catalog) : string :=
  match k with
  | AKUiClassesRegistry => "AKUiClassesRegistry"
  | AKComponentRegistry => "AKComponentRegistry"
  end.

Definition notFound (k : Catalog) : string :=
  "[" +:+ label k +:+ "] Class " +:+ dquote +:+ "%s" +:+ dquote +:+ " not found.".

(** [find]: [None] is the [null] it returns. *)
Definition find (k : Catalog) (aClassName : string) (s : State) : option AKClass :=
  if isNonEmptyStr (Some aClassName)
  then items k s !! Str.toLowerCase aClassName
  else None.

Definition register (k : Catalog) (aClassName : string) (aClass : AKClass) : M unit :=
  lift (assert (isNonEmptyStr (Some aClassName))) ;;;
  found <- reads (find k aClassName) ;;
  match found with
  | Some _ => ret tt
  | None =>
      modify (fun s => set_items k (<[Str.toLowerCase aClassName := aClass]> (items k s)) s) ;;;
      modify (set_class_name aClass aClassName)
  end.

Definition unregister (k : Catalog) (aClassName : string) : M unit :=
  if isNonEmptyStr (Some aClassName)
  then modify (fun s => set_items k (delete (Str.toLowerCase aClassName) (items k s)) s)
  else ret tt.

Definition get (k : Catalog) (aClassName : string) : M AKClass :=
  result <- reads (find k aClassName) ;;
  lift (assertFmt (bool_decide (is_Some result)) (notFound k) [Some aClassName]) ;;;
  match result with
  | Some c => ret c
  | None => throw (namedError "unreachable" "AssertionFailure") (* the assertion has thrown *)
  end.

(** [Object.hasOwn(this.#ITEMS, key)] *)
Definition hasOwn (k : Catalog) (key : string) (s : State) : bool :=
  bool_decide (is_Some (items k s !! key)).

(** The loop of [contains] over an array of names. *)
Fixpoint containsLoop (k : Catalog) (names : list string) (s : State) : bool :=
  match names with
  | [] => true
  | n :: rest => if negb (hasOwn k n s) then false else containsLoop k rest s
  end.

Definition contains (k : Catalog) (aClassName : NameArg) (s : State) : bool :=
  match aClassName with
  | ManyNames l => containsLoop k l s
  | OneName n => hasOwn k n s
  end.

End ClassRegistry.

(** ** The instance registry: [AKObjectRegistry] *)

Module AKObjectRegistry.

(** The property key under which [instances] holds an object of a class. *)
Definition key (c : AKClass) (s : State) : string := toStr (className c s).

Definition has (aId : string) (aClass : AKClass) : M bool :=
  lift (assert (isNonEmptyStr (Some aId))) ;;;
  reads (fun s =>
    match registry_items s !! aId with
    | Some item => bool_decide (is_Some (instances item !! key aClass s))
    | None => false
    end).

Definition register (aObject : AKInstance) (aId : string) : M AKInstance :=
  lift (assert true) ;;;
  lift (assert (isNonEmptyStr (Some aId))) ;;;
  cn <- reads (key (obj_class aObject)) ;;
  item <- reads (fun s => registry_items s !! aId) ;;
  (match item with
   | None => modify (fun s => set_registry_items (<[aId := mkRegistered ∅ []]> (registry_items s)) s)
   | Some _ => ret tt
   end) ;;;
  cur <- reads (fun s => registry_items s !! aId) ;;
  match cur with
  | None => throw (mkError "TypeError" "Cannot read properties of undefined")
  | Some it =>
      lift (assert (negb (bool_decide (is_Some (instances it !! cn))))) ;;;
      modify (fun s => set_registry_items
                (<[aId := mkRegistered (<[cn := aObject]> (instances it)) (controllers it)]>
                   (registry_items s)) s) ;;;
      ret aObject
  end.

Definition getAKObject (aId : string) (aClass : AKClass) : M AKInstance :=
  cn <- reads (key aClass) ;;
  item <- reads (fun s => registry_items s !! aId) ;;
  match item with
  | None => throw (mkError "TypeError" "Cannot read properties of undefined")
  | Some it =>
      match instances it !! cn with
      | Some o => lift (assert true) ;;; ret o
      | None => lift (assert false) ;;; throw (namedError "unreachable" "AssertionFailure")
      end
  end.

(** The signal is identified with its controller. *)
Definition addListenerController (aId : string) : M nat :=
  item <- reads (fun s => registry_items s !! aId) ;;
  lift (assert (bool_decide (is_Some item))) ;;;
  match item with
  | None => throw (namedError "unreachable" "AssertionFailure")
  | Some it =>
      fun s =>
        let controller := next_controller s in
        (Return controller,
         mkState (ui_items s) (component_items s) (class_names s)
                 (<[aId := mkRegistered (instances it) (controllers it ++ [controller])]>
                    (registry_items s))
                 (next_object s) (S (next_controller s)) (host_log s))
  end.

(** The loop of [unregister] over [item.controllers]. *)
Fixpoint abortAll (cs : list nat) : M unit :=
  match cs with
  | [] => ret tt
  | c :: rest => log (Abort c) ;;; abortAll rest
  end.

Definition unregister (aId : string) : M unit :=
  item <- reads (fun s => registry_items s !! aId) ;;
  match item with
  | None => ret tt
  | Some it =>
      abortAll (controllers it) ;;;
      modify (fun s => set_registry_items (delete aId (registry_items s)) s)
  end.

End AKObjectRegistry.

(** ** The base classes: [AKObject], [AKUiElement], [AKComponent] *)

(** [Array.prototype.forEach] and the [for] loops over an array. *)
Fixpoint forEach {A} (f : A -> M unit) (l : list A) : M unit :=
  match l with
  | [] => ret tt
  | x :: rest => f x ;;; forEach f rest
  end.

(** [AKObjectManager.listenerAdded] *)
Definition listenerAdded (aElement : Element) : M nat :=
  AKObjectRegistry.addListenerController (Str.toLowerCase (el_id aElement)).

Definition setCSSFromAttributes (aElement : Element) (aAttributes : list string) : M unit :=
  forEach (fun aAttribute =>
             if hasAttribute aElement aAttribute
             then log (ClassListAdd (el_node aElement) ["ak-" +:+ aAttribute])
             else log (ClassListRemove (el_node aElement) ("ak-" +:+ aAttribute)))
          aAttributes.

(** [_validateElement], as each of the three classes writes it.  Every
    value of type [Element] is an element, so [isElement] is true. *)
Definition AKObject_validateElement (aElement : Element) : M unit :=
  AKAssert true ;;;
  AKAssert (isNonEmptyStr (Some (el_id aElement))).

Definition AKUiElement_validateElement (this : AKClass) (aElement : Element) : M unit :=
  AKObject_validateElement aElement ;;;
  cn <- reads (className this) ;;
  b <- lift (matchText cn (getListAttribute aElement "ak-ui-classes")) ;;
  AKAssert b.

Definition AKComponent_validateElement (this : AKClass) (aElement : Element) : M unit :=
  AKObject_validateElement aElement ;;;
  cn <- reads (className this) ;;
  b <- lift (sameText cn (getAttribute aElement "ak-component-class")) ;;
  AKAssert b.

(** Dynamic dispatch of [this._validateElement]. *)
Definition validateElement (this : AKClass) (aElement : Element) : M unit :=
  if inheritsFrom this AKUiElement then AKUiElement_validateElement this aElement
  else if inheritsFrom this AKComponent then AKComponent_validateElement this aElement
  else AKObject_validateElement aElement.

(** The state after [new] has handed out a reference. *)
Definition allocated (s : State) : State :=
  mkState (ui_items s) (component_items s) (class_names s) (registry_items s)
          (S (next_object s)) (next_controller s) (host_log s).

(** [new aClass(aElement)]: the constructor of [AKObject].  The object
    gets its reference once the checks have passed. *)
Definition construct (aClass : AKClass) (aElement : Element) : M AKInstance :=
  cn <- reads (className aClass) ;;
  AKAssert (isNonEmptyStr cn) ;;;
  validateElement aClass aElement ;;;
  fun s => (Return (mkInstance (next_object s) aClass aElement), allocated s).

Definition AKUiElement_applyClass (this : AKClass) (aElement : Element) : M unit :=
  log (ClassListAdd (el_node aElement) (cls_classes this)) ;;;
  forEach (fun aEventName =>
             signal <- listenerAdded aElement ;;
             log (AddEventListener (el_node aElement) aEventName signal))
          (cls_handlers this) ;;;
  setCSSFromAttributes aElement supportedAtts.

(** Dynamic dispatch of [this._applyClass]; only [AKUiElement] overrides. *)
Definition applyClass (this : AKClass) (aElement : Element) : M unit :=
  if inheritsFrom this AKUiElement then AKUiElement_applyClass this aElement
  else ret tt.

Definition afterInitialization : M unit := ret tt.

Definition init (this : AKInstance) : M AKInstance :=
  applyClass (obj_class this) (obj_el this) ;;;
  afterInitialization ;;;
  ret this.

(** [static is], for [this] a class of each family. *)
Fixpoint AKUiElement_isLoop (this : AKClass) (akClasses : list string) (s : State) : option AKClass :=
  match akClasses with
  | [] => None
  | n :: rest =>
      match ClassRegistry.find AKUiClassesRegistry n s with
      | Some akClass =>
          if inheritsFrom akClass this then Some akClass
          else AKUiElement_isLoop this rest s
      | None => AKUiElement_isLoop this rest s
      end
  end.

Definition AKUiElement_is (this : AKClass) (aElement : Element) (s : State) : option AKClass :=
  AKUiElement_isLoop this (getListAttribute aElement "ak-ui-classes") s.

Definition AKComponent_is (this : AKClass) (aElement : Element) (s : State) : option AKClass :=
  match getAttribute aElement "ak-component-class" with
  | Some akClassName =>
      if isNonEmptyStr (Some akClassName) then
        match ClassRegistry.find AKComponentRegistry akClassName s with
        | Some akClass => if inheritsFrom akClass this then Some akClass else None
        | None => None
        end
      else None
  | None => None
  end.

(** ** The manager: [AKObjectManager] *)

Module AKObjectManager.

(** Lines 401 to 405 of [get]: the class the two tests leave in
    [akClass]; [None] is [null]. *)
Definition selectClass (aElement : Element) (aClassName : string) : M (option AKClass) :=
  isComponent <- lift (sameText (Some aClassName)
                         (Some (default "" (getAttribute aElement "ak-component-class")))) ;;
  akClass <- (if isComponent : bool
              then c <- ClassRegistry.get AKComponentRegistry aClassName ;; ret (Some c)
              else ret None) ;;
  isUi <- lift (matchText (Some aClassName) (getListAttribute aElement "ak-ui-classes")) ;;
  if isUi : bool
  then c <- ClassRegistry.get AKUiClassesRegistry aClassName ;; ret (Some c)
  else ret akClass.

Definition invalidTypecast (aClassName aId : string) : Outcome Error :=
  match fmt "Invalid AKObject class %s for element %s." [Some aClassName; Some aId] with
  | Throw e => Throw e
  | Return m => Return (namedError m "AKInvalidTypecast")
  end.

Definition get (aElement : Element) (aClassName : string) : M AKInstance :=
  lift (assert true) ;;;
  lift (assert (isNonEmptyStr (Some (el_id aElement)))) ;;;
  lift (assert (isNonEmptyStr (Some aClassName))) ;;;
  akClass <- selectClass aElement aClassName ;;
  match akClass with
  | None =>
      e <- lift (invalidTypecast aClassName (el_id aElement)) ;;
      throw e
  | Some akClass =>
      let id := Str.toLowerCase (el_id aElement) in
      known <- AKObjectRegistry.has id akClass ;;
      if known : bool
      then AKObjectRegistry.getAKObject id akClass
      else
        o <- construct akClass aElement ;;
        r <- AKObjectRegistry.register o id ;;
        init r
  end.

Definition delete (aElement : Element) : M unit :=
  AKObjectRegistry.unregister (Str.toLowerCase (el_id aElement)).

Definition enhance (aElement : Element) : M unit :=
  (if hasAttribute aElement "ak-component-class"
   then match getAttribute aElement "ak-component-class" with
        | Some n => get aElement n ;;; ret tt
        | None => ret tt
        end
   else ret tt) ;;;
  forEach (fun aClassName => get aElement aClassName ;;; ret tt)
          (getListAttribute aElement "ak-ui-classes").

End AKObjectManager.

(** ** The [parent] getters *)

(** [AKObjectManager.instance.get(result, akClass.className)]: a [null]
    name fails the third assertion of [get]. *)
Definition getByClass (result : Element) (akClass : AKClass) : M (option AKInstance) :=
  cn <- reads (className akClass) ;;
  match cn with
  | Some n => o <- AKObjectManager.get result n ;; ret (Some o)
  | None =>
      lift (assert true) ;;;
      lift (assert (isNonEmptyStr (Some (el_id result)))) ;;;
      lift (assert false) ;;;
      ret None
  end.

(** The [while (result)] loop, entered with [result = from.parentElement];
    [is_] is [AKUiElement.is] or [AKComponent.is]. *)
Fixpoint parentLoop (is_ : Element -> State -> option AKClass) (from : Element) : M (option AKInstance) :=
  match el_parentElement from with
  | None => ret None
  | Some result =>
      akClass <- reads (is_ result) ;;
      match akClass with
      | Some c => getByClass result c
      | None => parentLoop is_ result
      end
  end.

Definition AKUiElement_parent (this : AKInstance) : M (option AKInstance) :=
  parentLoop (AKUiElement_is AKUiElement) (obj_el this).

Definition AKComponent_parent (this : AKInstance) : M (option AKInstance) :=
  parentLoop (AKComponent_is AKComponent) (obj_el this).

Definition AKObject_parent (this : AKInstance) : M (option AKInstance) :=
  cn <- reads (className (obj_class this)) ;;
  m <- lift (fmt ("[%s] - Abstracted method " +:+ dquote +:+ "parent" +:+ dquote +:+ " called.") [cn]) ;;
  throw (namedError m "AKAbstractError").

(** Dynamic dispatch of [this.parent]. *)
Definition parent (this : AKInstance) : M (option AKInstance) :=
  if inheritsFrom (obj_class this) AKUiElement then AKUiElement_parent this
  else if inheritsFrom (obj_class this) AKComponent then AKComponent_parent this
  else AKObject_parent this.

(** ** The teardown callback: [observeDestroy] *)

Definition dispatchEvent (aElement : Element) (aEvent : string) : M unit :=
  log (DispatchEvent (el_node aElement) aEvent).

(** The callback given to [removedNodes.forEach]. *)
Definition observeNode (aNode : Node) : M unit :=
  if Nat.eqb (nodeType aNode) ELEMENT_NODE then
    match aNode with
    | ElementNode e => dispatchEvent e "destroy" ;;; AKObjectManager.delete e
    | _ => ret tt
    end
  else ret tt.

(** The body of the [for ... of] loop. *)
Definition observeMutation (mutation : MutationRecord) : M unit :=
  if bool_decide (mut_type mutation = "childList")
  then forEach observeNode (mut_removedNodes mutation)
  else ret tt.

Definition observeDestroy (aMutationList : list MutationRecord) : M unit :=
  forEach observeMutation aMutationList.


(** ** The rest of the manager's module *)


(** An element together with [aElement.children], as [enhanceElement]
    walks them. *)
Inductive Subtree : Type :=
| Sub (aElement : Element) (children : list Subtree).

(** [enhanceElement]: the element, then each child in turn. *)
Fixpoint enhanceElement (t : Subtree) : M unit :=
  match t with
  | Sub aElement children =>
      AKObjectManager.enhance aElement ;;;
      if Nat.ltb 0 (length children)
      then (fix each (l : list Subtree) : M unit :=
              match l with
              | [] => ret tt
              | child :: rest => enhanceElement child ;;; each rest
              end) children
      else ret tt
  end.

(** * Notions used by the statements *)

(** A string that does not contain the placeholder of [fmt]. *)
Definition noPlaceholder (s : string) : Prop := Str.indexOf "%s" s = None.

(** Does the text end with the first character of the placeholder? *)
Fixpoint endsPercent (a : string) : bool :=
  match a with
  | EmptyString => false
  | String x EmptyString => Ascii.eqb "%" x
  | String _ r => endsPercent r
  end.

(** The instance the registry holds for an identity under a key. *)
Definition instanceAt (s : State) (aId k : string) : option AKInstance :=
  match registry_items s !! aId with
  | Some it => instances it !! k
  | None => None
  end.

(** The catalogs and the static names are the same in two states. *)
Definition sameClasses (s s' : State) : Prop :=
  ui_items s = ui_items s' /\ component_items s = component_items s' /\
  class_names s = class_names s'.

(** Nothing but the host log and the controllers changed. *)
Definition sameInstances (s s' : State) : Prop :=
  sameClasses s s' /\ next_object s = next_object s' /\
  forall aId k, instanceAt s' aId k = instanceAt s aId k.

(** The chain walked by [parent]: the parent, its parent, and so on. *)
Fixpoint ancestors (e : Element) : list Element :=
  match el_parentElement e with
  | None => []
  | Some p => p :: ancestors p
  end.




(** The state after an entry was aborted and deleted. *)
Definition purged (aId : string) (s : State) : State :=
  match registry_items s !! aId with
  | None => s
  | Some it =>
      mkState (ui_items s) (component_items s) (class_names s)
              (delete aId (registry_items s))
              (next_object s) (next_controller s)
              (host_log s ++ (Abort <$> controllers it))
  end.

(** What a run of the teardown callback may have done to a state: the
    log has grown, entries are as they were or gone, and the controllers
    of a gone entry have been aborted. *)
Definition tornDown (s0 s : State) : Prop :=
  sameClasses s0 s /\ next_object s = next_object s0 /\
  (exists l, host_log s = host_log s0 ++ l) /\
  forall aId,
    registry_items s !! aId = registry_items s0 !! aId \/
    (registry_items s !! aId = None /\
     forall it c, registry_items s0 !! aId = Some it -> c ∈ controllers it ->
                  Abort c ∈ host_log s).

(** Every registered instance was handed out by [new] before. *)
Definition refsBelow (s : State) : Prop :=
  forall aId k o, instanceAt s aId k = Some o -> obj_ref o < next_object s.

Global Instance HostCall_eq_dec : EqDecision HostCall.
Proof. solve_decision. Defined.

(** * Scenarios

    Classes, nodes and states on which the statements are run. *)

(** The classes that [ak-ui-elements.js] registers, as far as used here. *)
Definition AKUiTabPanel : AKClass := mkClass 3 [1; 0] ["ak-tabpanel"] [].
Definition AKUiCloseElementButton : AKClass := mkClass 4 [1; 0] ["ak-close-button"] ["click"].

(** A node [panel1] typed "TabPanel". *)
Definition panel1 : Element :=
  mkElement 1 "panel1" {[ "ak-ui-classes" := "TabPanel" ]} None.
Definition withTabPanel : State :=
  snd (ClassRegistry.register AKUiClassesRegistry "TabPanel" AKUiTabPanel initial).

(** Another class, offered under a name already taken or under a name
    that holds the placeholder of [fmt]. *)
Definition Odd : AKClass := mkClass 9 [1; 0] [] [].

(** A name "Foo" in both catalogs, and nodes that declare it. *)
Definition FooUi : AKClass := mkClass 20 [1; 0] [] [].
Definition fooOnly : Element :=
  mkElement 8 "n8" {[ "ak-component-class" := "Foo" ]} None.
Definition barRegistered : State :=
  snd (ClassRegistry.register AKUiClassesRegistry "Bar" FooUi initial).

(** A node with two types and three subscriptions, and its removal. *)
Definition Keys : AKClass := mkClass 31 [1; 0] [] ["keydown"; "keyup"].
Definition tab1 : Element :=
  mkElement 5 "Tab1" {[ "ak-ui-classes" := "CloseElementButton Keys" ]} None.
Definition tab1Enhanced : State :=
  snd ((ClassRegistry.register AKUiClassesRegistry "CloseElementButton" AKUiCloseElementButton ;;;
        ClassRegistry.register AKUiClassesRegistry "Keys" Keys ;;;
        AKObjectManager.enhance tab1) initial).



(** * Notions used by the further statements *)

(** The controllers aborted so far, in order. *)
Definition abortedControllers (s : State) : list nat :=
  omap (fun h => match h with Abort c => Some c | _ => None end) (host_log s).

(** The instance tables are in order: every entry sits under a non-empty
    lower-case key; an instance sits under the lower-cased identity of
    its own node, under a non-empty key, with a reference handed out
    before; and no reference occurs twice. *)
Definition instancesInOrder (s : State) : Prop :=
  (forall aId it, registry_items s !! aId = Some it ->
     isNonEmptyStr (Some aId) = true /\ Str.toLowerCase aId = aId) /\
  (forall aId k o, instanceAt s aId k = Some o ->
     Str.toLowerCase (el_id (obj_el o)) = aId /\ obj_ref o < next_object s) /\
  (forall aId k o aId' k' o',
     instanceAt s aId k = Some o -> instanceAt s aId' k' = Some o' ->
     obj_ref o = obj_ref o' -> aId = aId' /\ k = k').

(** The entry of an identity, or the empty one [register] starts from. *)
Definition entryOf (s : State) (aId : string) : AKRegisteredObject :=
  default (mkRegistered ∅ []) (registry_items s !! aId).

(** The controllers held for an identity, none without an entry. *)
Definition held (s : State) (aId : string) : list nat := controllers (entryOf s aId).

(** The controllers are in order: those held by the registry were handed
    out before, are held once and for one identity only, and have not
    been aborted; no controller was aborted twice or before it existed. *)
Definition controllersInOrder (s : State) : Prop :=
  (forall aId c, c ∈ held s aId -> c < next_controller s /\ c ∉ abortedControllers s) /\
  (forall aId, NoDup (held s aId)) /\
  (forall aId aId' c, c ∈ held s aId -> c ∈ held s aId' -> aId = aId') /\
  (forall c, c ∈ abortedControllers s -> c < next_controller s) /\
  NoDup (abortedControllers s).

(** A computation relates the state it starts in to the state it leaves,
    whatever its outcome. *)
Definition keeps {A} (R : State -> State -> Prop) (m : M A) : Prop :=
  forall s r s', m s = (r, s') -> R s s'.

(** A computation keeps a property of the state, whatever its outcome. *)
Definition preserves {A} (I : State -> Prop) (m : M A) : Prop :=
  keeps (fun s s' => I s -> I s') m.

(** The state has only grown: the classes are the same, every instance
    is where it was, every entry holds the controllers it held (new ones
    come after them), the host log has only got longer without a new
    abort, and the counters have not gone back. *)
Definition grown (s s' : State) : Prop :=
  sameClasses s s' /\
  (forall aId k o, instanceAt s aId k = Some o -> instanceAt s' aId k = Some o) /\
  (forall aId it, registry_items s !! aId = Some it ->
     exists it' more, registry_items s' !! aId = Some it' /\
                      controllers it' = controllers it ++ more) /\
  (exists l, host_log s' = host_log s ++ l) /\
  abortedControllers s' = abortedControllers s /\
  next_object s <= next_object s' /\ next_controller s <= next_controller s'.

(** The elements of a subtree, in the order [enhanceElement] visits them. *)
Fixpoint preorder (t : Subtree) : list Element :=
  match t with
  | Sub e children => e :: flat_map preorder children
  end.

(** [tokens.join(' ')] *)
Fixpoint joinSpace (l : list string) : string :=
  match l with
  | [] => EmptyString
  | [w] => w
  | w :: rest => w +:+ String " "%char (joinSpace rest)
  end.

(** Does the text hold a space? *)
Fixpoint hasSpace (s : string) : bool :=
  match s with
  | EmptyString => false
  | String c r => Ascii.eqb c " "%char || hasSpace r
  end.

(** The number of spaces of a text. *)
Fixpoint countSpaces (s : string) : nat :=
  match s with
  | EmptyString => 0
  | String c r => (if Ascii.eqb c " "%char then 1 else 0) + countSpaces r
  end.

(** A text without the character [%]. *)
Fixpoint plain (s : string) : bool :=
  match s with
  | EmptyString => true
  | String c r => negb (Ascii.eqb "%"%char c) && plain r
  end.

(** A template: one placeholder in front of each piece. *)
Fixpoint holes (pieces : list string) : string :=
  match pieces with
  | [] => EmptyString
  | p :: rest => "%s" +:+ p +:+ holes rest
  end.

(** The same with each placeholder replaced by a value. *)
Fixpoint filled (parts : list (option string * string)) : string :=
  match parts with
  | [] => EmptyString
  | (v, p) :: rest => toStr v +:+ p +:+ filled rest
  end.


(** The state after [new] has handed out a reference for [o] and the
    registry has taken [o] under an identity. *)
Definition made (o : AKInstance) (aId : string) (s : State) : State :=
  mkState (ui_items s) (component_items s) (class_names s)
          (<[aId := mkRegistered
                      (<[AKObjectRegistry.key (obj_class o) s := o]> (instances (entryOf s aId)))
                      (controllers (entryOf s aId))]> (registry_items s))
          (S (next_object s)) (next_controller s) (host_log s).

(** The state after an entry was given one more controller. *)
Definition listening (aId : string) (s : State) : State :=
  mkState (ui_items s) (component_items s) (class_names s)
          (<[aId := mkRegistered (instances (entryOf s aId))
                                 (controllers (entryOf s aId) ++ [next_controller s])]>
             (registry_items s))
          (next_object s) (S (next_controller s)) (host_log s).

(** The type names a node declares, in the order [enhance] resolves
    them: the component class, then the tokens of the visual-behavior
    list. *)
Definition declared (el : Element) : list string :=
  option_list (getAttribute el "ak-component-class") ++ getListAttribute el "ak-ui-classes".

(** A node whose token list ends with a space. *)
Definition panel2 : Element :=
  mkElement 2 "panel2" {[ "ak-ui-classes" := "TabPanel " ]} None.





(** * Facts about the helpers *)

Section CaseFolding.

Lemma upper_lower_char c : Str.upperChar (Str.lowerChar c) = Str.upperChar c.
Proof. destruct c as [[] [] [] [] [] [] [] []]; reflexivity. Qed.

Lemma lower_upper_char c : Str.lowerChar (Str.upperChar c) = Str.lowerChar c.
Proof. destruct c as [[] [] [] [] [] [] [] []]; reflexivity. Qed.

Lemma upper_lower s : Str.toUpperCase (Str.toLowerCase s) = Str.toUpperCase s.
Proof.
  induction s as [|c r IH]; [reflexivity|].
  cbn. f_equal; [apply upper_lower_char | exact IH].
Qed.

Lemma lower_upper s : Str.toLowerCase (Str.toUpperCase s) = Str.toLowerCase s.
Proof.
  induction s as [|c r IH]; [reflexivity|].
  cbn. f_equal; [apply lower_upper_char | exact IH].
Qed.


Lemma toLowerCase_nonempty s :
  isNonEmptyStr (Some (Str.toLowerCase s)) = isNonEmptyStr (Some s).
Proof. destruct s; reflexivity. Qed.


Lemma sameText_strings a b :
  sameText (Some a) (Some b) = Return (bool_decide (Str.toUpperCase a = Str.toUpperCase b)).
Proof. reflexivity. Qed.



End CaseFolding.

(** ** What [fmt] returns *)

Section Formatting.

Lemma append_nil (b : string) : "" +:+ b = b.
Proof. reflexivity. Qed.

Lemma append_cons x (a b : string) : String x a +:+ b = String x (a +:+ b).
Proof. reflexivity. Qed.

Lemma append_nil_r (a : string) : a +:+ "" = a.
Proof. induction a as [|x a IH]; [reflexivity | now rewrite append_cons, IH]. Qed.

Lemma append_assoc (a b c : string) : (a +:+ b) +:+ c = a +:+ (b +:+ c).
Proof.
  induction a as [|x a IH]; [reflexivity|].
  now rewrite !append_cons, IH.
Qed.

Lemma startsWith_placeholder_cons x r :
  Str.startsWith "%s" (String x r) =
  Ascii.eqb "%" x && match r with String y _ => Ascii.eqb "s" y | EmptyString => false end.
Proof.
  cbn [Str.startsWith]. destruct (Ascii.eqb "%" x); [|reflexivity].
  destruct r as [|y r]; [reflexivity|].
  cbn [Str.startsWith andb]. now destruct (Ascii.eqb "s" y).
Qed.

Lemma indexOf_placeholder_cons x r :
  Str.indexOf "%s" (String x r) =
  if Str.startsWith "%s" (String x r) then Some 0 else S <$> Str.indexOf "%s" r.
Proof. reflexivity. Qed.

Lemma startsWith_s b :
  Str.startsWith "s" b = match b with String y _ => Ascii.eqb "s" y | EmptyString => false end.
Proof.
  destruct b as [|y r]; [reflexivity|].
  cbn [Str.startsWith]. now destruct (Ascii.eqb "s" y).
Qed.

(** Past a placeholder-free text the search goes on in what follows,
    unless a placeholder straddles the seam. *)
Lemma indexOf_app a b :
  noPlaceholder a -> endsPercent a && Str.startsWith "s" b = false ->
  Str.indexOf "%s" (a +:+ b) = (fun n => String.length a + n) <$> Str.indexOf "%s" b.
Proof.
  unfold noPlaceholder. induction a as [|x a IH]; intros Ha Hseam.
  - rewrite append_nil. now destruct (Str.indexOf "%s" b).
  - rewrite indexOf_placeholder_cons in Ha.
    destruct (Str.startsWith "%s" (String x a)) eqn:Hst; [discriminate|].
    destruct (Str.indexOf "%s" a) eqn:Hi; [discriminate|].
    rewrite append_cons, indexOf_placeholder_cons.
    assert (Str.startsWith "%s" (String x (a +:+ b)) = false) as ->.
    { rewrite startsWith_placeholder_cons in *.
      destruct a as [|y a'].
      - rewrite append_nil, <- startsWith_s. exact Hseam.
      - rewrite append_cons. exact Hst. }
    rewrite IH; [now destruct (Str.indexOf "%s" b) | reflexivity |].
    destruct a as [|y a']; [reflexivity | exact Hseam].
Qed.

Lemma noPlaceholder_app a b :
  noPlaceholder a -> noPlaceholder b ->
  endsPercent a && Str.startsWith "s" b = false ->
  noPlaceholder (a +:+ b).
Proof.
  intros Ha Hb Hseam. unfold noPlaceholder.
  rewrite indexOf_app by assumption. now rewrite Hb.
Qed.

Lemma endsPercent_app a y r : endsPercent (a +:+ String y r) = endsPercent (String y r).
Proof.
  induction a as [|x a IH]; [reflexivity|].
  rewrite append_cons. destruct a as [|z a']; [reflexivity|].
  rewrite append_cons in *. exact IH.
Qed.

Lemma sliceTo_app a n r :
  Str.sliceTo (String.length a + n) (a +:+ r) = a +:+ Str.sliceTo n r.
Proof.
  induction a as [|x a IH]; [reflexivity|].
  rewrite !append_cons. cbn [String.length Nat.add Str.sliceTo]. now rewrite IH.
Qed.

Lemma sliceFrom_app a n r :
  Str.sliceFrom (String.length a + n) (a +:+ r) = Str.sliceFrom n r.
Proof.
  induction a as [|x a IH]; [reflexivity|].
  rewrite append_cons. cbn [String.length Nat.add Str.sliceFrom]. exact IH.
Qed.

Lemma fmt_done s vs : noPlaceholder s -> fmt s vs = Return s.
Proof. unfold noPlaceholder. intros H. destruct vs; cbn [fmt]; now rewrite H. Qed.

(** One round of the loop of [fmt]: the first placeholder is replaced
    by the first value. *)
Lemma fmt_subst p v r vs :
  noPlaceholder p -> endsPercent p = false ->
  fmt (p +:+ "%s" +:+ r) (v :: vs) = fmt (p +:+ toStr v +:+ r) vs.
Proof.
  intros Hp He. cbn [fmt].
  rewrite indexOf_app; [|exact Hp|now rewrite He].
  replace (Str.indexOf "%s" ("%s" +:+ r)) with (Some 0) by reflexivity.
  cbn [fmap option_fmap option_map]. unfold spliceString.
  rewrite <- Nat.add_assoc, sliceTo_app, sliceFrom_app.
  cbn [Nat.add Str.sliceTo Str.sliceFrom].
  replace (Str.sliceFrom 2 ("%s" +:+ r)) with r by reflexivity.
  destruct r; now rewrite append_nil_r.
Qed.

(** With too few values, [fmt] throws. *)
Lemma fmt_starved s : ~ noPlaceholder s ->
  fmt s [] = Throw (mkError "AssertionFailure" "Not enough values to format string.").
Proof.
  unfold noPlaceholder. intros H. cbn [fmt].
  destruct (Str.indexOf "%s" s); [reflexivity | congruence].
Qed.

Lemma fmt_typecast T i :
  noPlaceholder T -> noPlaceholder i ->
  fmt "Invalid AKObject class %s for element %s." [Some T; Some i] =
  Return ("Invalid AKObject class " +:+ T +:+ " for element " +:+ i +:+ ".").
Proof.
  intros HT Hi.
  change "Invalid AKObject class %s for element %s."
    with ("Invalid AKObject class " +:+ "%s" +:+ " for element %s.").
  rewrite fmt_subst by reflexivity.
  change " for element %s." with (" for element " +:+ "%s" +:+ ".").
  rewrite <- !append_assoc.
  rewrite !(append_assoc _ "%s" "."), fmt_subst.
  - rewrite fmt_done; [now rewrite !append_assoc|].
    repeat (apply noPlaceholder_app || rewrite endsPercent_app || rewrite andb_false_r);
      try reflexivity; try assumption.
  - repeat (apply noPlaceholder_app || rewrite endsPercent_app || rewrite andb_false_r);
      try reflexivity; try assumption.
  - now rewrite endsPercent_app.
Qed.

Lemma fmt_notFound k n :
  noPlaceholder n ->
  fmt (ClassRegistry.notFound k) [Some n] =
  Return ("[" +:+ ClassRegistry.label k +:+ "] Class " +:+ dquote +:+ n +:+ dquote +:+ " not found.").
Proof.
  intros Hn. unfold ClassRegistry.notFound.
  rewrite <- !(append_assoc _ _ ("%s" +:+ _)), fmt_subst by (destruct k; reflexivity).
  rewrite fmt_done; [now rewrite !append_assoc|].
  destruct k;
    repeat (apply noPlaceholder_app || rewrite endsPercent_app || rewrite andb_false_r);
    try reflexivity; try assumption.
Qed.

Lemma fmt_AKAssert v :
  noPlaceholder (toStr v) ->
  fmt "[%s] - Assertion failure." [v] = Return ("[" +:+ toStr v +:+ "] - Assertion failure.").
Proof.
  intros Hv.
  change "[%s] - Assertion failure." with ("[" +:+ "%s" +:+ "] - Assertion failure.").
  rewrite fmt_subst by reflexivity.
  apply fmt_done.
  repeat (apply noPlaceholder_app || rewrite endsPercent_app || rewrite andb_false_r);
    try reflexivity; try assumption.
Qed.

End Formatting.

(** ** Computations *)

Section Monad.
Context {A B : Type}.

Lemma bind_Return (m : M A) (k : A -> M B) s a s1 :
  m s = (Return a, s1) -> bind m k s = k a s1.
Proof. unfold bind. now intros ->. Qed.

End Monad.

Section Frames.

Lemma sameClasses_refl s : sameClasses s s.
Proof. repeat split. Qed.

Lemma sameClasses_trans s1 s2 s3 : sameClasses s1 s2 -> sameClasses s2 s3 -> sameClasses s1 s3.
Proof. intros (?&?&?) (?&?&?). repeat split; congruence. Qed.

Lemma sameInstances_refl s : sameInstances s s.
Proof. split; [apply sameClasses_refl | split; [reflexivity | reflexivity]]. Qed.

Lemma sameInstances_trans s1 s2 s3 :
  sameInstances s1 s2 -> sameInstances s2 s3 -> sameInstances s1 s3.
Proof.
  intros (Hc & Hn & Hi) (Hc' & Hn' & Hi'). split; [|split].
  - eapply sameClasses_trans; eassumption.
  - congruence.
  - intros aId k. now rewrite Hi', Hi.
Qed.

Lemma className_same c s s' : sameClasses s s' -> className c s' = className c s.
Proof. intros (_ & _ & H). unfold className. now rewrite H. Qed.

Lemma key_same c s s' : sameClasses s s' -> AKObjectRegistry.key c s' = AKObjectRegistry.key c s.
Proof. intros H. unfold AKObjectRegistry.key. now rewrite (className_same c s s'). Qed.

Lemma find_same k n s s' : sameClasses s s' -> ClassRegistry.find k n s' = ClassRegistry.find k n s.
Proof.
  intros (Hu & Hc & _). unfold ClassRegistry.find, ClassRegistry.items.
  destruct k; now rewrite ?Hu, ?Hc.
Qed.

(** A catalog lookup reads the state and leaves it alone. *)
Lemma ClassRegistry_get_state k n s r s' : ClassRegistry.get k n s = (r, s') -> s' = s.
Proof.
  unfold ClassRegistry.get, bind, reads, lift, ret, throw.
  destruct (assertFmt _ _ _); [destruct (ClassRegistry.find k n s)|]; now intros [= _ <-].
Qed.


Lemma selectClass_state el T s r s' : AKObjectManager.selectClass el T s = (r, s') -> s' = s.
Proof.
  unfold AKObjectManager.selectClass, bind, lift, ret.
  destruct (sameText _ _) as [[|]|]; [| |now intros [= _ <-]].
  - destruct (ClassRegistry.get AKComponentRegistry T s) as [[c|e] s1] eqn:Hc;
      apply ClassRegistry_get_state in Hc as ->; [|now intros [= _ <-]].
    destruct (matchText _ _) as [[|]|]; [| |now intros [= _ <-]].
    + destruct (ClassRegistry.get AKUiClassesRegistry T s) as [[c'|e] s1] eqn:Hu;
        apply ClassRegistry_get_state in Hu as ->; now intros [= _ <-].
    + now intros [= _ <-].
  - destruct (matchText _ _) as [[|]|]; [| |now intros [= _ <-]].
    + destruct (ClassRegistry.get AKUiClassesRegistry T s) as [[c'|e] s1] eqn:Hu;
        apply ClassRegistry_get_state in Hu as ->; now intros [= _ <-].
    + now intros [= _ <-].
Qed.

Lemma ClassRegistry_get_unfold k n s :
  ClassRegistry.get k n s =
  (match assertFmt (bool_decide (is_Some (ClassRegistry.find k n s)))
           (ClassRegistry.notFound k) [Some n] with
   | Throw e => Throw e
   | Return _ =>
       match ClassRegistry.find k n s with
       | Some c => Return c
       | None => Throw (namedError "unreachable" "AssertionFailure")
       end
   end, s).
Proof.
  unfold ClassRegistry.get, bind, reads, lift, ret, throw.
  destruct (assertFmt _ _ _); [destruct (ClassRegistry.find k n s)|]; reflexivity.
Qed.

Lemma ClassRegistry_get_transfer k n s s' :
  sameClasses s s' ->
  ClassRegistry.get k n s' = (fst (ClassRegistry.get k n s), s').
Proof.
  intros H. rewrite !ClassRegistry_get_unfold. now rewrite (find_same k n s s' H).
Qed.

(** The class selected by [get] depends on the catalogs only. *)
Lemma selectClass_transfer el T s s' :
  sameClasses s s' ->
  AKObjectManager.selectClass el T s' = (fst (AKObjectManager.selectClass el T s), s').
Proof.
  intros H. unfold AKObjectManager.selectClass, bind, lift, ret.
  destruct (sameText _ _) as [[|]|]; [| |reflexivity];
    destruct (matchText _ _) as [[|]|];
    rewrite ?(ClassRegistry_get_transfer AKComponentRegistry T s s' H);
    destruct (ClassRegistry.get AKComponentRegistry T s) as [[c1|e1] s1] eqn:E1;
    try (apply ClassRegistry_get_state in E1 as ->); cbn [fst snd];
    rewrite ?(ClassRegistry_get_transfer AKUiClassesRegistry T s s' H);
    destruct (ClassRegistry.get AKUiClassesRegistry T s) as [[c2|e2] s2] eqn:E2;
    try (apply ClassRegistry_get_state in E2 as ->); reflexivity.
Qed.

End Frames.

Section RegistryFacts.

Lemma has_unfold aId c s :
  AKObjectRegistry.has aId c s =
  (match assert (isNonEmptyStr (Some aId)) with
   | Throw e => Throw e
   | Return _ =>
       Return (bool_decide (is_Some (instanceAt s aId (AKObjectRegistry.key c s))))
   end, s).
Proof.
  unfold AKObjectRegistry.has, bind, lift, reads, instanceAt.
  destruct (assert _); [|reflexivity].
  destruct (registry_items s !! aId); reflexivity.
Qed.

Lemma getAKObject_hit aId c s o :
  instanceAt s aId (AKObjectRegistry.key c s) = Some o ->
  AKObjectRegistry.getAKObject aId c s = (Return o, s).
Proof.
  unfold instanceAt, AKObjectRegistry.getAKObject, bind, lift, reads, ret.
  destruct (registry_items s !! aId) as [it|]; [|discriminate].
  now intros ->.
Qed.

Lemma AKAssert_state b s r s' : AKAssert b s = (r, s') -> s' = s.
Proof. unfold AKAssert. now intros [= _ <-]. Qed.

Lemma AKAssert_Return b s u s' : AKAssert b s = (Return u, s') -> b = true.
Proof.
  unfold AKAssert, assertFmt, assert_msg.
  destruct (fmt _ _); [|discriminate]. destruct b; [reflexivity | discriminate].
Qed.

Lemma AKObject_validateElement_state el s r s' :
  AKObject_validateElement el s = (r, s') -> s' = s.
Proof.
  unfold AKObject_validateElement, bind.
  destruct (AKAssert true s) as [[u|e] s1] eqn:E1; apply AKAssert_state in E1 as ->.
  - apply AKAssert_state.
  - now intros [= _ <-].
Qed.

Lemma validateElement_state c el s r s' : validateElement c el s = (r, s') -> s' = s.
Proof.
  unfold validateElement, AKUiElement_validateElement, AKComponent_validateElement.
  destruct (inheritsFrom c AKUiElement); [|destruct (inheritsFrom c AKComponent)];
    try apply AKObject_validateElement_state;
    unfold bind, reads, lift;
    destruct (AKObject_validateElement el s) as [[u|e] s1] eqn:E1;
    apply AKObject_validateElement_state in E1 as ->;
    try (now intros [= _ <-]).
  - destruct (matchText _ _); [apply AKAssert_state | now intros [= _ <-]].
  - destruct (sameText _ _); [apply AKAssert_state | now intros [= _ <-]].
Qed.

(** A construction that returns has passed the checks, and the object
    carries the next reference. *)
Lemma construct_Return c el s o s' :
  construct c el s = (Return o, s') ->
  o = mkInstance (next_object s) c el /\ s' = allocated s /\
  isNonEmptyStr (className c s) = true /\
  validateElement c el s = (Return tt, s).
Proof.
  unfold construct, bind, reads.
  destruct (AKAssert _ s) as [[u|e] s1] eqn:E1; [|discriminate].
  pose proof (AKAssert_Return _ _ _ _ E1) as Hn. apply AKAssert_state in E1 as ->.
  destruct (validateElement c el s) as [[[]|e] s1] eqn:E2; [|discriminate].
  apply validateElement_state in E2 as ->.
  intros [= <- <-]. repeat split; assumption.
Qed.

(** Registering where the registry holds nothing under the key. *)
Lemma register_fresh o aId s :
  isNonEmptyStr (Some aId) = true ->
  instanceAt s aId (AKObjectRegistry.key (obj_class o) s) = None ->
  exists s2,
    AKObjectRegistry.register o aId s = (Return o, s2) /\
    sameClasses s s2 /\ next_object s2 = next_object s /\
    next_controller s2 = next_controller s /\ host_log s2 = host_log s /\
    is_Some (registry_items s2 !! aId) /\
    forall aId' k,
      instanceAt s2 aId' k =
      if bool_decide (aId' = aId /\ k = AKObjectRegistry.key (obj_class o) s)
      then Some o else instanceAt s aId' k.
Proof.
  intros Hid Hnone.
  unfold AKObjectRegistry.register, bind, lift, reads, ret, modify, assert, assert_msg.
  rewrite Hid. unfold instanceAt in Hnone.
  destruct (registry_items s !! aId) as [it|] eqn:Hit.
  - cbn. rewrite Hit, Hnone. cbn. eexists. split; [reflexivity|].
    repeat split; cbn; try reflexivity.
    + rewrite lookup_insert_eq. eauto.
    + intros aId' k. unfold instanceAt. cbn.
      destruct (decide (aId' = aId)) as [->|Hne].
      * rewrite lookup_insert_eq, Hit. cbn.
        destruct (decide (k = AKObjectRegistry.key (obj_class o) s)) as [->|Hk].
        -- rewrite bool_decide_eq_true_2 by done. apply lookup_insert_eq.
        -- rewrite bool_decide_eq_false_2 by (intros [_ ?]; done).
           now rewrite lookup_insert_ne.
      * rewrite bool_decide_eq_false_2 by (intros [? _]; done).
        now rewrite lookup_insert_ne.
  - cbn. rewrite lookup_insert_eq. cbn. rewrite lookup_empty. cbn.
    eexists. split; [reflexivity|].
    repeat split; cbn; try reflexivity.
    + rewrite lookup_insert_eq. eauto.
    + intros aId' k. unfold instanceAt. cbn.
      destruct (decide (aId' = aId)) as [->|Hne].
      * rewrite lookup_insert_eq, Hit. cbn.
        destruct (decide (k = AKObjectRegistry.key (obj_class o) s)) as [->|Hk].
        -- rewrite bool_decide_eq_true_2 by done. apply lookup_insert_eq.
        -- rewrite bool_decide_eq_false_2 by (intros [_ ?]; done).
           rewrite lookup_insert_ne by done. apply lookup_empty.
      * rewrite bool_decide_eq_false_2 by (intros [? _]; done).
        rewrite !lookup_insert_ne by done. reflexivity.
Qed.

End RegistryFacts.

Section Lifecycle.

Lemma forEach_frame {A} (P : State -> State -> Prop) (f : A -> M unit) l :
  (forall s, P s s) ->
  (forall s1 s2 s3, P s1 s2 -> P s2 s3 -> P s1 s3) ->
  (forall x s r s', f x s = (r, s') -> P s s') ->
  forall s r s', forEach f l s = (r, s') -> P s s'.
Proof.
  intros Hrefl Htrans Hf. induction l as [|x l IH]; intros s r s'.
  - cbn. intros [= _ <-]. apply Hrefl.
  - cbn [forEach]. unfold bind.
    destruct (f x s) as [[u|e] s1] eqn:E1; apply Hf in E1.
    + intros E2. apply IH in E2. eapply Htrans; eassumption.
    + now intros [= _ <-].
Qed.

Lemma log_frame c s r s' : log c s = (r, s') -> sameInstances s s'.
Proof.
  unfold log, modify. intros [= _ <-].
  split; [repeat split | split; reflexivity].
Qed.

Lemma addListenerController_frame aId s r s' :
  AKObjectRegistry.addListenerController aId s = (r, s') -> sameInstances s s'.
Proof.
  unfold AKObjectRegistry.addListenerController, bind, reads, lift, throw.
  destruct (registry_items s !! aId) as [it|] eqn:Hit.
  - rewrite bool_decide_eq_true_2 by eauto. cbn. intros [= _ <-].
    split; [repeat split | split; [reflexivity|]].
    intros aId' k. unfold instanceAt. cbn.
    destruct (decide (aId = aId')) as [<-|Hne].
    + now rewrite lookup_insert_eq, Hit.
    + now rewrite lookup_insert_ne.
  - rewrite bool_decide_eq_false_2 by (intros [? ?]; discriminate).
    cbn. intros [= _ <-]. apply sameInstances_refl.
Qed.

Lemma setCSSFromAttributes_frame el atts s r s' :
  setCSSFromAttributes el atts s = (r, s') -> sameInstances s s'.
Proof.
  unfold setCSSFromAttributes.
  apply forEach_frame; [apply sameInstances_refl | apply sameInstances_trans |].
  intros a s0 r0 s0'. destruct (hasAttribute el a); apply log_frame.
Qed.

Lemma applyClass_frame c el s r s' : applyClass c el s = (r, s') -> sameInstances s s'.
Proof.
  unfold applyClass. destruct (inheritsFrom c AKUiElement).
  - unfold AKUiElement_applyClass, bind.
    destruct (log _ s) as [[u|e] s1] eqn:E1; apply log_frame in E1;
      [|intros [= _ <-]; exact E1].
    destruct (forEach _ _ s1) as [[u2|e] s2] eqn:E2.
    + intros E3. apply setCSSFromAttributes_frame in E3.
      eapply sameInstances_trans; [exact E1|].
      eapply sameInstances_trans; [|exact E3].
      revert E2. apply forEach_frame;
        [apply sameInstances_refl | apply sameInstances_trans |].
      intros h s0 r0 s0'. unfold bind, listenerAdded.
      destruct (AKObjectRegistry.addListenerController _ s0) as [[sg|e] s3] eqn:E4;
        apply addListenerController_frame in E4.
      * intros E5. apply log_frame in E5. eapply sameInstances_trans; eassumption.
      * now intros [= _ <-].
    + intros [= _ <-]. eapply sameInstances_trans; [exact E1|].
      revert E2. apply forEach_frame;
        [apply sameInstances_refl | apply sameInstances_trans |].
      intros h s0 r0 s0'. unfold bind, listenerAdded.
      destruct (AKObjectRegistry.addListenerController _ s0) as [[sg|e'] s3] eqn:E4;
        apply addListenerController_frame in E4.
      * intros E5. apply log_frame in E5. eapply sameInstances_trans; eassumption.
      * now intros [= _ <-].
  - unfold ret. intros [= _ <-]. apply sameInstances_refl.
Qed.

(** Initialising touches the host and the controllers, nothing else. *)
Lemma init_frame o s r s' : init o s = (r, s') -> sameInstances s s'.
Proof.
  unfold init, afterInitialization, bind, ret.
  destruct (applyClass _ _ s) as [[u|e] s1] eqn:E1; apply applyClass_frame in E1;
    now intros [= _ <-].
Qed.

Lemma init_Return o s r s' : init o s = (Return r, s') -> r = o.
Proof.
  unfold init, afterInitialization, bind, ret.
  destruct (applyClass _ _ s) as [[u|e] s1]; [now intros [= <- _] | discriminate].
Qed.

End Lifecycle.

Section Resolution.

(** What a returning [get] has done: the class was selected, and the
    instance was either found in the registry or made by the three steps
    construct, register, init. *)
Lemma get_inv el T s o s' :
  AKObjectManager.get el T s = (Return o, s') ->
  isNonEmptyStr (Some (el_id el)) = true /\ isNonEmptyStr (Some T) = true /\
  exists c,
    AKObjectManager.selectClass el T s = (Return (Some c), s) /\
    let aId := Str.toLowerCase (el_id el) in
    ((instanceAt s aId (AKObjectRegistry.key c s) = Some o /\ s' = s) \/
     (instanceAt s aId (AKObjectRegistry.key c s) = None /\
      exists s2,
        construct c el s = (Return o, allocated s) /\
        AKObjectRegistry.register o aId (allocated s) = (Return o, s2) /\
        init o s2 = (Return o, s'))).
Proof.
  unfold AKObjectManager.get, bind, lift, assert, assert_msg. cbn [namedError].
  destruct (isNonEmptyStr (Some (el_id el))) eqn:Hid; [|discriminate].
  destruct (isNonEmptyStr (Some T)) eqn:HT; [|discriminate].
  destruct (AKObjectManager.selectClass el T s) as [[[c|]|e] s1] eqn:Hsel;
    pose proof (selectClass_state _ _ _ _ _ Hsel) as ->.
  - rewrite has_unfold. unfold assert, assert_msg.
    rewrite toLowerCase_nonempty, Hid.
    intros H. split; [reflexivity|]. split; [reflexivity|].
    exists c. split; [reflexivity|]. cbv zeta.
    destruct (instanceAt s _ _) as [o'|] eqn:Hat.
    + left. rewrite bool_decide_eq_true_2 in H by eauto.
      rewrite (getAKObject_hit _ _ _ _ Hat) in H. now injection H as -> ->.
    + right. split; [reflexivity|].
      rewrite bool_decide_eq_false_2 in H by (intros [? ?]; discriminate).
      destruct (construct c el s) as [[o1|e] s1] eqn:Hc; [|discriminate].
      destruct (construct_Return _ _ _ _ _ Hc) as (Ho1 & -> & _ & _).
      destruct (AKObjectRegistry.register o1 _ _) as [[o2|e] s2] eqn:Hr; [|discriminate].
      assert (o2 = o1) as ->.
      { destruct (register_fresh o1 (Str.toLowerCase (el_id el)) (allocated s)) as (s2' & Hr' & _).
        - now rewrite toLowerCase_nonempty.
        - rewrite Ho1. exact Hat.
        - rewrite Hr in Hr'. now injection Hr' as ->. }
      pose proof (init_Return _ _ _ _ H) as ->.
      exists s2. repeat split; assumption.
  - unfold AKObjectManager.invalidTypecast, throw.
    destruct (fmt _ _); discriminate.
  - discriminate.
Qed.

(** A registered instance is returned as it is. *)
Lemma get_hit el T s c o :
  isNonEmptyStr (Some (el_id el)) = true -> isNonEmptyStr (Some T) = true ->
  AKObjectManager.selectClass el T s = (Return (Some c), s) ->
  instanceAt s (Str.toLowerCase (el_id el)) (AKObjectRegistry.key c s) = Some o ->
  AKObjectManager.get el T s = (Return o, s).
Proof.
  intros Hid HT Hsel Hat.
  unfold AKObjectManager.get, bind, lift, assert, assert_msg.
  rewrite Hid, HT, Hsel, has_unfold. unfold assert, assert_msg.
  rewrite toLowerCase_nonempty, Hid, Hat, bool_decide_eq_true_2 by eauto.
  now apply getAKObject_hit.
Qed.

(** After a returning [get] the registry holds the instance under the
    lower-cased identity and the static name of the selected class. *)
Lemma get_registered el T s o s' c :
  AKObjectManager.get el T s = (Return o, s') ->
  AKObjectManager.selectClass el T s = (Return (Some c), s) ->
  sameClasses s s' /\
  instanceAt s' (Str.toLowerCase (el_id el)) (AKObjectRegistry.key c s') = Some o.
Proof.
  intros Hget Hsel.
  destruct (get_inv _ _ _ _ _ Hget) as (Hid & HT & c' & Hsel' & Hcase).
  rewrite Hsel in Hsel'. injection Hsel' as <-. cbv zeta in Hcase.
  destruct Hcase as [[Hat ->] | (Hnone & s2 & Hc & Hr & Hi)].
  - split; [apply sameClasses_refl | exact Hat].
  - destruct (construct_Return _ _ _ _ _ Hc) as (Ho & _ & _ & _).
    destruct (register_fresh o (Str.toLowerCase (el_id el)) (allocated s)) as (s2' & Hr' & Hsc & _ & _ & _ & _ & Hat).
    + now rewrite toLowerCase_nonempty.
    + rewrite Ho. exact Hnone.
    + rewrite Hr in Hr'. injection Hr' as <-.
      apply init_frame in Hi as (Hsc' & _ & Hat').
      assert (sameClasses s s') as Hss.
      { eapply sameClasses_trans; [|exact Hsc']. exact Hsc. }
      split; [exact Hss|].
      rewrite Hat', Hat, (key_same c s s' Hss).
      rewrite bool_decide_eq_true_2; [reflexivity|].
      split; [reflexivity|]. rewrite Ho. reflexivity.
Qed.

End Resolution.

Section Catalogs.

Lemma register_absent k n c s :
  isNonEmptyStr (Some n) = true -> ClassRegistry.find k n s = None ->
  ClassRegistry.register k n c s =
  (Return tt,
   set_class_name c n
     (ClassRegistry.set_items k (<[Str.toLowerCase n := c]> (ClassRegistry.items k s)) s)).
Proof.
  intros Hn Hf.
  unfold ClassRegistry.register, bind, lift, reads, modify, assert, assert_msg.
  now rewrite Hn, Hf.
Qed.


Lemma items_set_items k m s : ClassRegistry.items k (ClassRegistry.set_items k m s) = m.
Proof. now destruct k. Qed.

Lemma items_set_class_name k c n s :
  ClassRegistry.items k (set_class_name c n s) = ClassRegistry.items k s.
Proof. now destruct k. Qed.

(** What [find] sees after a registration that took effect. *)
Lemma find_after_register k n c s n' :
  isNonEmptyStr (Some n) = true -> ClassRegistry.find k n s = None ->
  ClassRegistry.find k n' (snd (ClassRegistry.register k n c s)) =
  if bool_decide (Str.toLowerCase n' = Str.toLowerCase n) then Some c
  else ClassRegistry.find k n' s.
Proof.
  intros Hn Hf. rewrite register_absent by assumption. cbn [snd].
  unfold ClassRegistry.find. rewrite items_set_class_name, items_set_items.
  case_bool_decide as Heq.
  - rewrite Heq, lookup_insert_eq.
    rewrite <- (toLowerCase_nonempty n'), Heq, toLowerCase_nonempty, Hn. reflexivity.
  - rewrite lookup_insert_ne by congruence. reflexivity.
Qed.


End Catalogs.

Section Selection.




End Selection.

Section FoundOrMade.

(** A returning [get], in full: the selected class, where the instance
    sits afterwards, and how it came to be there. *)
Lemma get_found_or_made el T s o s' :
  AKObjectManager.get el T s = (Return o, s') ->
  exists c,
    AKObjectManager.selectClass el T s = (Return (Some c), s) /\
    sameClasses s s' /\
    instanceAt s' (Str.toLowerCase (el_id el)) (toStr (className c s')) = Some o /\
    ((instanceAt s (Str.toLowerCase (el_id el)) (toStr (className c s)) = Some o /\ s' = s) \/
     (instanceAt s (Str.toLowerCase (el_id el)) (toStr (className c s)) = None /\
      o = mkInstance (next_object s) c el /\
      next_object s' = S (next_object s) /\
      exists s2,
        construct c el s = (Return o, allocated s) /\
        AKObjectRegistry.register o (Str.toLowerCase (el_id el)) (allocated s) = (Return o, s2) /\
        init o s2 = (Return o, s'))).
Proof.
  intros Hget.
  destruct (get_inv _ _ _ _ _ Hget) as (Hid & HT & c & Hsel & Hcase).
  destruct (get_registered _ _ _ _ _ _ Hget Hsel) as (Hsame & Hat).
  exists c. split; [exact Hsel|]. split; [exact Hsame|]. split; [exact Hat|].
  cbv zeta in Hcase. destruct Hcase as [Hhit | (Hnone & s2 & Hc & Hr & Hi)].
  - left. exact Hhit.
  - right. split; [exact Hnone|].
    destruct (construct_Return _ _ _ _ _ Hc) as (Ho & _ & _ & _).
    split; [exact Ho|]. split.
    + destruct (register_fresh o (Str.toLowerCase (el_id el)) (allocated s)) as (s2' & Hr' & _ & Hn & _).
      * now rewrite toLowerCase_nonempty.
      * rewrite Ho. exact Hnone.
      * rewrite Hr in Hr'. injection Hr' as <-.
        apply init_frame in Hi as (_ & Hn' & _). rewrite <- Hn', Hn. reflexivity.
    + exists s2. repeat split; assumption.
Qed.


End FoundOrMade.

Section CatalogGet.

Lemma ClassRegistry_get_absent k n s :
  noPlaceholder n -> ClassRegistry.find k n s = None ->
  ClassRegistry.get k n s =
  (Throw (mkError "AssertionFailure"
            ("[" +:+ ClassRegistry.label k +:+ "] Class " +:+ dquote +:+ n +:+ dquote +:+ " not found.")), s).
Proof.
  intros Hn Hf. rewrite ClassRegistry_get_unfold, Hf.
  unfold assertFmt. rewrite fmt_notFound by exact Hn. reflexivity.
Qed.

Lemma ClassRegistry_get_present k n s c :
  noPlaceholder n -> ClassRegistry.find k n s = Some c ->
  ClassRegistry.get k n s = (Return c, s).
Proof.
  intros Hn Hf. rewrite ClassRegistry_get_unfold, Hf.
  unfold assertFmt. rewrite fmt_notFound by exact Hn. reflexivity.
Qed.

End CatalogGet.

Section ParentWalk.





End ParentWalk.


Section Teardown.

Lemma abortAll_unfold cs s :
  AKObjectRegistry.abortAll cs s =
  (Return tt,
   mkState (ui_items s) (component_items s) (class_names s) (registry_items s)
           (next_object s) (next_controller s) (host_log s ++ (Abort <$> cs))).
Proof.
  revert s. induction cs as [|c cs IH]; intros s.
  - cbn. rewrite app_nil_r. now destruct s.
  - cbn [AKObjectRegistry.abortAll]. unfold bind, log, modify. rewrite IH. cbn.
    now rewrite <- app_assoc.
Qed.

Lemma unregister_unfold aId s :
  AKObjectRegistry.unregister aId s = (Return tt, purged aId s).
Proof.
  unfold AKObjectRegistry.unregister, purged, bind, reads, ret, modify.
  destruct (registry_items s !! aId) as [it|]; [|reflexivity].
  now rewrite abortAll_unfold.
Qed.

Lemma delete_unfold e s :
  AKObjectManager.delete e s = (Return tt, purged (Str.toLowerCase (el_id e)) s).
Proof. apply unregister_unfold. Qed.






Lemma purged_gone aId s : registry_items (purged aId s) !! aId = None.
Proof.
  unfold purged. destruct (registry_items s !! aId) as [it|] eqn:Hit; [|exact Hit].
  cbn. apply lookup_delete_eq.
Qed.









End Teardown.

Section Freshness.

Lemma refsBelow_initial : refsBelow initial.
Proof. intros aId k o. unfold instanceAt. cbn. rewrite lookup_empty. discriminate. Qed.

Lemma refsBelow_tornDown s s' : tornDown s s' -> refsBelow s -> refsBelow s'.
Proof.
  intros (_ & Hn & _ & Hr) Hb aId k o. unfold instanceAt. rewrite Hn.
  destruct (Hr aId) as [-> | [-> _]]; [apply Hb | discriminate].
Qed.

Lemma refsBelow_get el T s o s' :
  AKObjectManager.get el T s = (Return o, s') -> refsBelow s -> refsBelow s'.
Proof.
  intros Hget Hb.
  destruct (get_found_or_made _ _ _ _ _ Hget) as (c & _ & _ & _ & [[_ ->] | (Hnone & Ho & Hn & s2 & Hc & Hr & Hi)]);
    [exact Hb|].
  intros aId k o'.
  destruct (get_inv _ _ _ _ _ Hget) as (Hid & _).
  destruct (register_fresh o (Str.toLowerCase (el_id el)) (allocated s)) as (s2' & Hr' & _ & _ & _ & _ & _ & Hat).
  - now rewrite toLowerCase_nonempty.
  - rewrite Ho. exact Hnone.
  - rewrite Hr in Hr'. injection Hr' as <-.
    apply init_frame in Hi as (_ & _ & Hat'). rewrite Hat', Hat, Hn.
    case_bool_decide.
    + intros [= <-]. rewrite Ho. cbn. lia.
    + intros Hold. apply Hb in Hold. lia.
Qed.

End Freshness.


Section CatalogQueries.


(** [find] never throws, and reports an absent name by [null]. *)
Lemma find_absent k n s :
  ClassRegistry.items k s !! Str.toLowerCase n = None -> ClassRegistry.find k n s = None.
Proof. intros H. unfold ClassRegistry.find. rewrite H. now destruct (isNonEmptyStr _). Qed.

(** [contains] on a collection stops at the first absent name. *)
Lemma containsLoop_stops k pre x post s :
  ClassRegistry.containsLoop k pre s = true ->
  ClassRegistry.hasOwn k x s = false ->
  ClassRegistry.contains k (ManyNames (pre ++ x :: post)) s = false.
Proof.
  cbn [ClassRegistry.contains]. induction pre as [|p pre IH]; intros Hpre Hx.
  - cbn. now rewrite Hx.
  - cbn in Hpre |- *. destruct (ClassRegistry.hasOwn k p s); [now apply IH | discriminate].
Qed.

Lemma containsLoop_all k l s :
  ClassRegistry.containsLoop k l s = true <->
  Forall (fun n => ClassRegistry.hasOwn k n s = true) l.
Proof.
  induction l as [|n l IH]; [split; [constructor | reflexivity]|].
  cbn [ClassRegistry.containsLoop]. rewrite Forall_cons, <- IH.
  destruct (ClassRegistry.hasOwn k n s); cbn; intuition discriminate.
Qed.

Lemma hasOwn_after_register k n c s key :
  isNonEmptyStr (Some n) = true -> ClassRegistry.find k n s = None ->
  ClassRegistry.hasOwn k key (snd (ClassRegistry.register k n c s)) =
  bool_decide (key = Str.toLowerCase n) || ClassRegistry.hasOwn k key s.
Proof.
  intros Hn Hf. rewrite register_absent by assumption. cbn [snd].
  unfold ClassRegistry.hasOwn. rewrite items_set_class_name, items_set_items.
  destruct (decide (key = Str.toLowerCase n)) as [Hk|Hk].
  - rewrite Hk, lookup_insert_eq, !bool_decide_eq_true_2 by eauto. reflexivity.
  - rewrite lookup_insert_ne by congruence.
    now rewrite (bool_decide_eq_false_2 (key = _)) by exact Hk.
Qed.

Lemma indexOf_app_l a b i :
  Str.indexOf "%s" a = Some i -> Str.indexOf "%s" (a +:+ b) = Some i.
Proof.
  revert i. induction a as [|x a IH]; intros i; [discriminate|].
  rewrite append_cons, !indexOf_placeholder_cons, !startsWith_placeholder_cons.
  destruct a as [|y a'].
  - rewrite andb_false_r. cbn. discriminate.
  - rewrite append_cons. destruct (_ && _); [trivial|].
    rewrite <- append_cons.
    destruct (Str.indexOf "%s" (String y a')) as [j|]; [|discriminate].
    now rewrite (IH j eq_refl).
Qed.

Lemma indexOf_app_r p b i :
  Str.indexOf "%s" b = Some i -> exists j, Str.indexOf "%s" (p +:+ b) = Some j.
Proof.
  intros Hb. induction p as [|x p [j IH]]; [now exists i|].
  rewrite append_cons, indexOf_placeholder_cons.
  destruct (Str.startsWith _ _); [now exists 0|]. rewrite IH. now exists (S j).
Qed.

(** A name that holds the placeholder starves [fmt] of values. *)
Lemma fmt_notFound_starved k n :
  ~ noPlaceholder n ->
  fmt (ClassRegistry.notFound k) [Some n] =
  Throw (mkError "AssertionFailure" "Not enough values to format string.").
Proof.
  intros Hn. unfold ClassRegistry.notFound.
  rewrite <- !(append_assoc _ _ ("%s" +:+ _)), fmt_subst by (destruct k; reflexivity).
  apply fmt_starved. unfold noPlaceholder in *.
  destruct (Str.indexOf "%s" n) as [i|] eqn:Hi; [|congruence].
  cbn [toStr].
  match goal with
  | |- Str.indexOf _ (?p +:+ ?x +:+ ?r) <> None =>
      destruct (indexOf_app_r p (x +:+ r) i) as [j Hj];
        [now apply indexOf_app_l | rewrite Hj; discriminate]
  end.
Qed.

End CatalogQueries.


(** Where the lookups do as the catalogs promise. *)
Lemma get_and_find k n s :
  noPlaceholder n ->
  (ClassRegistry.find k n s = None ->
   exists m, ClassRegistry.get k n s = (Throw (mkError "AssertionFailure" m), s)) /\
  (forall c, ClassRegistry.find k n s = Some c -> ClassRegistry.get k n s = (Return c, s)).
Proof.
  intros Hn. split.
  - intros Hf. eexists. now apply ClassRegistry_get_absent.
  - intros c Hf. now apply ClassRegistry_get_present.
Qed.

Section Success.


Lemma log_Return c s : exists s', log c s = (Return tt, s') /\ registry_items s' = registry_items s.
Proof. eexists. split; reflexivity. Qed.

Lemma forEach_Return {A} (I : State -> Prop) (f : A -> M unit) l :
  (forall x s, I s -> exists s', f x s = (Return tt, s') /\ I s') ->
  forall s, I s -> exists s', forEach f l s = (Return tt, s') /\ I s'.
Proof.
  intros Hf. induction l as [|x l IH]; intros s Hs; [now exists s|].
  cbn [forEach]. unfold bind. destruct (Hf x s Hs) as (s1 & -> & Hs1).
  now apply IH.
Qed.

Lemma listenerAdded_Returns el h s :
  is_Some (registry_items s !! Str.toLowerCase (el_id el)) ->
  exists s',
    (signal <- listenerAdded el ;; log (AddEventListener (el_node el) h signal)) s = (Return tt, s') /\
    is_Some (registry_items s' !! Str.toLowerCase (el_id el)).
Proof.
  intros [it Hit]. unfold bind, listenerAdded.
  unfold AKObjectRegistry.addListenerController, bind, reads, lift.
  rewrite Hit, bool_decide_eq_true_2 by eauto. cbn.
  eexists. split; [reflexivity|]. cbn. rewrite lookup_insert_eq. eauto.
Qed.

Lemma setCSSFromAttributes_Returns el atts s :
  exists s', setCSSFromAttributes el atts s = (Return tt, s').
Proof.
  destruct (forEach_Return (fun _ => True)
              (fun aAttribute =>
                 if hasAttribute el aAttribute
                 then log (ClassListAdd (el_node el) ["ak-" +:+ aAttribute])
                 else log (ClassListRemove (el_node el) ("ak-" +:+ aAttribute)))
              atts) with (s := s) as (s2 & Hs2 & _).
  - intros a st _. destruct (hasAttribute _ _); eexists; split; (reflexivity || exact I).
  - exact I.
  - now exists s2.
Qed.

(** With an entry for the node in the registry, initialising returns. *)
Lemma init_Returns o s :
  is_Some (registry_items s !! Str.toLowerCase (el_id (obj_el o))) ->
  exists s', init o s = (Return o, s').
Proof.
  intros Hentry. unfold init, afterInitialization, applyClass.
  destruct (inheritsFrom _ _); [|now eexists].
  unfold AKUiElement_applyClass.
  destruct (forEach_Return
              (fun st => is_Some (registry_items st !! Str.toLowerCase (el_id (obj_el o))))
              (fun aEventName =>
                 signal <- listenerAdded (obj_el o) ;;
                 log (AddEventListener (el_node (obj_el o)) aEventName signal))
              (cls_handlers (obj_class o))
              (fun h st => listenerAdded_Returns (obj_el o) h st)
              (logged (ClassListAdd (el_node (obj_el o)) (cls_classes (obj_class o))) s)
              Hentry) as (s1 & E1 & _).
  destruct (setCSSFromAttributes_Returns (obj_el o) supportedAtts s1) as (s2 & E2).
  exists s2.
  erewrite bind_Return; [reflexivity|].
  erewrite bind_Return; [|reflexivity].
  erewrite bind_Return; [exact E2 | exact E1].
Qed.

(** Once the constructor has returned, [get] returns: registering and
    initialising a new instance cannot fail. *)
Lemma get_makes el T s c :
  isNonEmptyStr (Some (el_id el)) = true -> isNonEmptyStr (Some T) = true ->
  AKObjectManager.selectClass el T s = (Return (Some c), s) ->
  instanceAt s (Str.toLowerCase (el_id el)) (toStr (className c s)) = None ->
  construct c el s = (Return (mkInstance (next_object s) c el), allocated s) ->
  exists s', AKObjectManager.get el T s = (Return (mkInstance (next_object s) c el), s').
Proof.
  intros Hid HT Hsel Hnone Hc.
  unfold AKObjectManager.get, bind, lift, assert, assert_msg.
  rewrite Hid, HT, Hsel, has_unfold. unfold assert, assert_msg.
  rewrite toLowerCase_nonempty, Hid. unfold AKObjectRegistry.key. rewrite Hnone.
  rewrite bool_decide_eq_false_2 by (intros [? ?]; discriminate).
  rewrite Hc.
  destruct (register_fresh (mkInstance (next_object s) c el) (Str.toLowerCase (el_id el)) (allocated s))
    as (s2 & -> & _ & _ & _ & _ & Hentry & _).
  - now rewrite toLowerCase_nonempty.
  - exact Hnone.
  - now apply init_Returns.
Qed.

(** The constructor of a visual-behavior class returns on a node that
    carries an identity and the static name of the class among its
    tokens ([AKObject] itself bearing no name with a placeholder). *)
Lemma construct_ui c el s n :
  inheritsFrom c AKUiElement = true ->
  noPlaceholder (toStr (className AKObject s)) ->
  isNonEmptyStr (Some (el_id el)) = true ->
  className c s = Some n -> isNonEmptyStr (Some n) = true ->
  matchText (Some n) (getListAttribute el "ak-ui-classes") = Return true ->
  construct c el s = (Return (mkInstance (next_object s) c el), allocated s).
Proof.
  intros Hui Hroot Hid Hn Hne Hm.
  assert (forall b, AKAssert b s = (assert_msg b ("[" +:+ toStr (className AKObject s) +:+ "] - Assertion failure."), s)) as HA.
  { intros b. unfold AKAssert, assertFmt. now rewrite fmt_AKAssert. }
  unfold construct, bind, reads. rewrite Hn, HA, Hne. cbn [assert_msg].
  unfold validateElement. rewrite Hui.
  unfold AKUiElement_validateElement, AKObject_validateElement, bind, reads, lift.
  rewrite !HA, Hid. cbn [assert_msg]. rewrite Hn, Hm, HA. reflexivity.
Qed.

End Success.

Section Skips.



End Skips.

(** * The claims *)

(** ** C1: uniqueness of the instance *)



(** ** C2: the teardown callback *)



(** ** C3: which catalog decides *)




(** ** C4: how [get] fails *)

(** C4, refuted as stated.  The node [fooOnly] declares "Foo" in
    [ak-component-class] and the catalog has no entry for it: [get] fails,
    but with the assertion failure of the catalog lookup, whose message
    names the catalog and the type and not the node, and not with
    [AKInvalidTypecast]. *)
Lemma missing_entry_is_not_a_typecast_counterexample :
  sameText (Some "Foo") (Some (default "" (getAttribute fooOnly "ak-component-class"))) = Return true /\
  ClassRegistry.find AKComponentRegistry "Foo" initial = None /\
  AKObjectManager.get fooOnly "Foo" initial =
    (Throw (mkError "AssertionFailure"
              ("[AKComponentRegistry] Class " +:+ dquote +:+ "Foo" +:+ dquote +:+ " not found.")),
     initial) /\
  "AssertionFailure" <> "AKInvalidTypecast".
Proof. repeat split; try (vm_compute; reflexivity). discriminate. Qed.

(** C4, amended.  For a node with a non-empty identity and a non-empty
    requested name, neither of which holds the placeholder of [fmt]:
    - if the name matches neither [ak-component-class] nor a token of
      [ak-ui-classes], [get] throws [AKInvalidTypecast] with a message
      that names the requested type and the node identity;
    - if the name matches an attribute and the catalog of that attribute
      has no entry for it, [get] throws the [AssertionFailure] of the
      catalog lookup, whose message names the catalog and the name.
    The state is left as it was. *)
Theorem get_failures (el : Element) (T : string) (s : State) :
  isNonEmptyStr (Some (el_id el)) = true ->
  isNonEmptyStr (Some T) = true ->
  noPlaceholder T -> noPlaceholder (el_id el) ->
  let isComponent := sameText (Some T) (Some (default "" (getAttribute el "ak-component-class"))) in
  let isUi := matchText (Some T) (getListAttribute el "ak-ui-classes") in
  (isComponent = Return false -> isUi = Return false ->
   AKObjectManager.get el T s =
     (Throw (mkError "AKInvalidTypecast"
               ("Invalid AKObject class " +:+ T +:+ " for element " +:+ el_id el +:+ ".")), s)) /\
  (isComponent = Return true ->
   ClassRegistry.find AKComponentRegistry T s = None ->
   AKObjectManager.get el T s =
     (Throw (mkError "AssertionFailure"
               ("[AKComponentRegistry] Class " +:+ dquote +:+ T +:+ dquote +:+ " not found.")), s)) /\
  (isUi = Return true ->
   ClassRegistry.find AKUiClassesRegistry T s = None ->
   isComponent = Return false \/ is_Some (ClassRegistry.find AKComponentRegistry T s) ->
   AKObjectManager.get el T s =
     (Throw (mkError "AssertionFailure"
               ("[AKUiClassesRegistry] Class " +:+ dquote +:+ T +:+ dquote +:+ " not found.")), s)).
Proof.
  intros Hid HT HnT Hni isComponent isUi. subst isComponent isUi.
  unfold AKObjectManager.get, bind, lift, assert, assert_msg.
  rewrite Hid, HT. unfold AKObjectManager.selectClass, bind, lift, ret.
  split; [|split].
  - intros -> ->. unfold AKObjectManager.invalidTypecast, throw.
    rewrite fmt_typecast by assumption. reflexivity.
  - intros -> Hf. now rewrite (ClassRegistry_get_absent _ _ _ HnT Hf).
  - intros -> Hf [-> | [c Hc]].
    + now rewrite (ClassRegistry_get_absent _ _ _ HnT Hf).
    + destruct (sameText _ _) as [[|]|] eqn:E.
      * rewrite (ClassRegistry_get_present _ _ _ _ HnT Hc).
        now rewrite (ClassRegistry_get_absent _ _ _ HnT Hf).
      * now rewrite (ClassRegistry_get_absent _ _ _ HnT Hf).
      * rewrite sameText_strings in E. discriminate.
Qed.

(** C4 amended, on the node whose exclusive attribute is "Foo", asked for
    the registered visual-behavior type "Bar" that it does not declare. *)
Lemma get_failures_witness :
  (isNonEmptyStr (Some (el_id fooOnly)) = true /\ isNonEmptyStr (Some "Bar") = true /\
   noPlaceholder "Bar" /\ noPlaceholder (el_id fooOnly)) /\
  ClassRegistry.find AKUiClassesRegistry "Bar" barRegistered = Some FooUi /\
  AKObjectManager.get fooOnly "Bar" barRegistered =
    (Throw (mkError "AKInvalidTypecast" "Invalid AKObject class Bar for element n8."), barRegistered).
Proof.
  split; [repeat split|]. split; [reflexivity|].
  apply (get_failures fooOnly "Bar" barRegistered); reflexivity.
Defined.

(** ** C5: what [delete] does *)




(** ** C6: existence queries *)

(** C6, where the code departs from it.  [contains] looks the name up as
    it is given, while the catalog keeps lower-cased keys: after a name
    with an upper-case letter was registered, [find] reports it and
    [contains] does not, neither for the name alone nor for the
    collection of that one name; only the lower-cased spelling is
    reported by [contains]. *)
Theorem contains_is_case_sensitive (k : Catalog) (s : State) (n : string) (c : AKClass) :
  isNonEmptyStr (Some n) = true ->
  ClassRegistry.find k n s = None ->
  ClassRegistry.hasOwn k n s = false ->
  Str.toLowerCase n <> n ->
  let s1 := snd (ClassRegistry.register k n c s) in
  ClassRegistry.find k n s1 = Some c /\
  ClassRegistry.contains k (OneName n) s1 = false /\
  ClassRegistry.contains k (ManyNames [n]) s1 = false /\
  ClassRegistry.contains k (OneName (Str.toLowerCase n)) s1 = true.
Proof.
  intros Hn Hf Hown Hcase. cbn zeta.
  split; [|split; [|split]].
  - rewrite find_after_register by assumption. now rewrite bool_decide_eq_true_2.
  - cbn [ClassRegistry.contains]. rewrite hasOwn_after_register, Hown by assumption.
    now rewrite bool_decide_eq_false_2 by congruence.
  - cbn [ClassRegistry.contains ClassRegistry.containsLoop].
    rewrite hasOwn_after_register, Hown by assumption.
    now rewrite bool_decide_eq_false_2 by congruence.
  - cbn [ClassRegistry.contains]. rewrite hasOwn_after_register by assumption.
    now rewrite bool_decide_eq_true_2.
Qed.

(** C6 on the registration of "TabPanel" that [ak-ui-elements.js] makes. *)
Lemma contains_is_case_sensitive_witness :
  ClassRegistry.find AKUiClassesRegistry "TabPanel" withTabPanel = Some AKUiTabPanel /\
  ClassRegistry.contains AKUiClassesRegistry (OneName "TabPanel") withTabPanel = false /\
  ClassRegistry.contains AKUiClassesRegistry (ManyNames ["TabPanel"]) withTabPanel = false /\
  ClassRegistry.contains AKUiClassesRegistry (OneName "tabpanel") withTabPanel = true.
Proof.
  apply (contains_is_case_sensitive AKUiClassesRegistry initial "TabPanel" AKUiTabPanel);
    try reflexivity.
  vm_compute. discriminate.
Defined.

(** ** C7: first registration wins *)



(** ** C8: [get] and [find] on a catalog *)

(** C8, where the code departs from it.  [get] formats its message before
    it looks at what [find] returned, and [fmt] looks for the placeholder
    again in the text it has just put in: for a registered name that
    holds the placeholder, [get] throws and does not return the class
    that [find] returns. *)
Theorem get_fails_on_registered_placeholder_name (k : Catalog) (s : State) (n : string) (c : AKClass) :
  ClassRegistry.find k n s = Some c ->
  ~ noPlaceholder n ->
  ClassRegistry.get k n s =
  (Throw (mkError "AssertionFailure" "Not enough values to format string."), s).
Proof.
  intros Hf Hn. rewrite ClassRegistry_get_unfold. unfold assertFmt.
  now rewrite fmt_notFound_starved.
Qed.

(** C8 on the name "100%sure". *)
Lemma get_fails_on_registered_placeholder_name_witness :
  let s1 := snd (ClassRegistry.register AKUiClassesRegistry "100%sure" Odd initial) in
  ClassRegistry.find AKUiClassesRegistry "100%sure" s1 = Some Odd /\
  ClassRegistry.get AKUiClassesRegistry "100%sure" s1 =
  (Throw (mkError "AssertionFailure" "Not enough values to format string."), s1).
Proof.
  cbn zeta. split; [reflexivity|].
  apply (get_fails_on_registered_placeholder_name AKUiClassesRegistry _ "100%sure" Odd).
  - reflexivity.
  - vm_compute. discriminate.
Defined.

(** ** C9: the [parent] getter *)



(** ** C10: one class under two names *)


(** * Further properties of the code *)

(** ** Comparing and splitting text *)

Section TextFacts.

Lemma matchText_existsb a l :
  matchText (Some a) l =
  Return (existsb (fun v => bool_decide (Str.toUpperCase a = Str.toUpperCase v)) l).
Proof.
  induction l as [|v l IH]; [reflexivity|].
  cbn [matchText existsb]. rewrite sameText_strings, IH.
  now destruct (bool_decide _).
Qed.

Lemma splitSpace_cons c r :
  Str.splitSpace (String c r) =
  if Ascii.eqb c " " then EmptyString :: Str.splitSpace r
  else match Str.splitSpace r with
       | [] => [String c EmptyString]
       | w :: ws => String c w :: ws
       end.
Proof. reflexivity. Qed.

Lemma splitSpace_nonempty s : Str.splitSpace s <> [].
Proof.
  induction s as [|c r IH]; [discriminate|].
  rewrite splitSpace_cons. destruct (Ascii.eqb c " "); [discriminate|].
  destruct (Str.splitSpace r); [contradiction | discriminate].
Qed.

Lemma joinSpace_cons w l :
  l <> [] -> joinSpace (w :: l) = w +:+ String " "%char (joinSpace l).
Proof. destruct l; [contradiction | reflexivity]. Qed.

Lemma splitSpace_joins (s : string) :
  joinSpace (Str.splitSpace s) = s /\
  Forall (fun w => hasSpace w = false) (Str.splitSpace s) /\
  length (Str.splitSpace s) = S (countSpaces s).
Proof.
  induction s as [|c r (IHj & IHf & IHl)]; [repeat split; repeat constructor|].
  rewrite splitSpace_cons. cbn [countSpaces]. pose proof (splitSpace_nonempty r) as Hne.
  destruct (Ascii.eqb c " ") eqn:Hc.
  - apply Ascii.eqb_eq in Hc as ->. split; [|split].
    + rewrite joinSpace_cons by exact Hne. now rewrite IHj.
    + constructor; [reflexivity | exact IHf].
    + cbn. now rewrite IHl.
  - destruct (Str.splitSpace r) as [|w ws]; [contradiction|]. split; [|split].
    + rewrite <- IHj. destruct ws; reflexivity.
    + apply Forall_cons in IHf as [Hw Hws]. constructor; [|exact Hws].
      cbn. now rewrite Hc, Hw.
    + exact IHl.
Qed.

End TextFacts.


(** X2.  [matchText] on a string and a list of strings never throws: it
    returns true exactly when some value of the list is the same text as
    the string up to case, and false exactly when none is.  When the
    first argument is not a string, it returns false on the empty list
    (no comparison is made) and throws an AssertionFailure on any other
    list. *)
Theorem matchText_finds_any_casing (a : string) (l : list string) :
  (matchText (Some a) l = Return true <->
   exists v, v ∈ l /\ sameText (Some a) (Some v) = Return true) /\
  (matchText (Some a) l = Return false <->
   forall v, v ∈ l -> sameText (Some a) (Some v) = Return false) /\
  matchText None [] = Return false /\
  (forall v rest, matchText None (v :: rest) =
                  Throw (mkError "AssertionFailure" "Assertion failure.")).
Proof.
  rewrite matchText_existsb. split; [|split; [|split; reflexivity]].
  - split.
    + intros [= H]. apply existsb_exists in H as (v & Hin & Hv).
      exists v. split; [now apply list_elem_of_In|]. now rewrite sameText_strings, Hv.
    + intros (v & Hin & Hv). f_equal. apply existsb_exists.
      exists v. split; [now apply list_elem_of_In|].
      rewrite sameText_strings in Hv. now injection Hv.
  - split.
    + intros [= H] v Hin. rewrite sameText_strings. f_equal.
      destruct (bool_decide _) eqn:E; [|reflexivity].
      rewrite <- H. symmetry. apply existsb_exists. exists v.
      split; [now apply list_elem_of_In | exact E].
    + intros H. f_equal. destruct (existsb _ l) eqn:E; [|reflexivity].
      apply existsb_exists in E as (v & Hin & Hv).
      apply list_elem_of_In in Hin. specialize (H v Hin).
      rewrite sameText_strings, Hv in H. discriminate.
Qed.

(** X2 on the tokens "Closer" and "TabPanel". *)
Lemma matchText_finds_any_casing_witness :
  matchText (Some "tabpanel") ["Closer"; "TabPanel"] = Return true /\
  exists v, v ∈ ["Closer"; "TabPanel"] /\ sameText (Some "tabpanel") (Some v) = Return true.
Proof.
  split; [reflexivity|].
  apply (proj1 (matchText_finds_any_casing "tabpanel" ["Closer"; "TabPanel"])).
  reflexivity.
Defined.


(** X3.  [listAttribute] (and [Element.prototype.getListAttribute], which
    calls it) gives no token for a missing or empty attribute; for any
    other value it gives tokens that hold no space, one more of them
    than the value has spaces, and joining them with single spaces
    gives the value back, so that nothing of the value is lost or
    trimmed. *)
Theorem listAttribute_splits_at_spaces (el : Element) (a : string) :
  getListAttribute el a = listAttribute el a /\
  (getAttribute el a = None \/ getAttribute el a = Some "" -> listAttribute el a = []) /\
  (forall v, getAttribute el a = Some v -> v <> "" ->
     joinSpace (listAttribute el a) = v /\
     Forall (fun w => hasSpace w = false) (listAttribute el a) /\
     length (listAttribute el a) = S (countSpaces v)).
Proof.
  split; [reflexivity|]. unfold listAttribute. split.
  - intros [-> | ->]; reflexivity.
  - intros v -> Hv. destruct v as [|c r]; [contradiction|]. apply splitSpace_joins.
Qed.

(** X3 on the two tokens of the node [tab1]. *)
Lemma listAttribute_splits_at_spaces_witness :
  joinSpace (listAttribute tab1 "ak-ui-classes") = "CloseElementButton Keys" /\
  length (listAttribute tab1 "ak-ui-classes") = 2.
Proof.
  assert (getAttribute tab1 "ak-ui-classes" = Some "CloseElementButton Keys") as H
    by (vm_compute; reflexivity).
  destruct (proj2 (proj2 (listAttribute_splits_at_spaces tab1 "ak-ui-classes")) _ H)
    as (Hj & _ & Hl); [discriminate|].
  split; [exact Hj | exact Hl].
Defined.

(** ** Formatting *)

Section PlainText.

Lemma plain_cons c r : plain (String c r) = negb (Ascii.eqb "%" c) && plain r.
Proof. reflexivity. Qed.

Lemma plain_noPlaceholder s : plain s = true -> noPlaceholder s.
Proof.
  unfold noPlaceholder. induction s as [|c r IH]; [reflexivity|].
  rewrite plain_cons. intros [Hc Hr]%andb_true_iff.
  rewrite indexOf_placeholder_cons, startsWith_placeholder_cons.
  apply negb_true_iff in Hc. rewrite Hc. cbn [andb]. now rewrite IH.
Qed.

Lemma plain_endsPercent s : plain s = true -> endsPercent s = false.
Proof.
  induction s as [|c r IH]; [reflexivity|].
  rewrite plain_cons. intros [Hc Hr]%andb_true_iff. apply negb_true_iff in Hc.
  destruct r as [|d r']; [exact Hc | now apply IH].
Qed.

Lemma plain_app a b : plain (a +:+ b) = plain a && plain b.
Proof.
  induction a as [|c a IH]; [reflexivity|].
  rewrite append_cons, !plain_cons, IH. now rewrite andb_assoc.
Qed.

Lemma indexOf_found p r :
  noPlaceholder p -> endsPercent p = false ->
  Str.indexOf "%s" (p +:+ "%s" +:+ r) = Some (String.length p + 0).
Proof.
  intros Hp He. rewrite indexOf_app; [reflexivity | exact Hp | now rewrite He].
Qed.

End PlainText.

(** X4.  [fmt] fills the placeholders from left to right.  For a
    template made of texts without the character [%] with one
    placeholder in front of each piece, and values whose texts hold no
    [%] either ([null] is written "null"): given at least one value per
    placeholder, [fmt] returns the template with the i-th placeholder
    replaced by the i-th value and ignores the values left over; given
    one value too few, it throws the AssertionFailure "Not enough values
    to format string.". *)
Theorem fmt_fills_the_holes (p0 : string) (parts : list (option string * string))
        (surplus : list (option string)) (rest : string) :
  plain p0 = true ->
  Forall (fun vp => plain (toStr (fst vp)) = true /\ plain (snd vp) = true) parts ->
  fmt (p0 +:+ holes (snd <$> parts)) ((fst <$> parts) ++ surplus) =
    Return (p0 +:+ filled parts) /\
  fmt (p0 +:+ holes (snd <$> parts) +:+ "%s" +:+ rest) (fst <$> parts) =
    Throw (mkError "AssertionFailure" "Not enough values to format string.").
Proof.
  revert p0. induction parts as [|[v p] parts IH]; intros p0 Hp0 Hparts.
  - cbn [fmap list_fmap holes filled app]. split.
    + apply fmt_done. rewrite append_nil_r. now apply plain_noPlaceholder.
    + rewrite append_nil. apply fmt_starved. unfold noPlaceholder.
      rewrite indexOf_found; [discriminate | now apply plain_noPlaceholder
                                           | now apply plain_endsPercent].
  - apply Forall_cons in Hparts as [[Hv Hp] Hparts]. cbn [fst snd] in Hv, Hp.
    cbn [fmap list_fmap holes filled app fst snd].
    assert (plain (p0 +:+ toStr v +:+ p) = true) as Hp0'.
    { rewrite !plain_app, Hp0, Hv, Hp. reflexivity. }
    destruct (IH (p0 +:+ toStr v +:+ p) Hp0' Hparts) as [IH1 IH2].
    split.
    + rewrite fmt_subst
        by (now apply plain_noPlaceholder || now apply plain_endsPercent).
      rewrite !append_assoc in IH1. exact IH1.
    + rewrite ?append_assoc, fmt_subst
        by (now apply plain_noPlaceholder || now apply plain_endsPercent).
      rewrite !append_assoc in IH2. exact IH2.
Qed.

(** X4 on the message of [AKInvalidTypecast], with a value to spare. *)
Lemma fmt_fills_the_holes_witness :
  fmt "Invalid AKObject class %s for element %s." [Some "Tab"; None; Some "spare"] =
  Return "Invalid AKObject class Tab for element null.".
Proof.
  apply (fmt_fills_the_holes "Invalid AKObject class "
           [(Some "Tab", " for element "); (None, ".")] [Some "spare"] "").
  - reflexivity.
  - repeat constructor.
Defined.

(** X5.  Whatever the template and the values: a result of [fmt] holds no
    placeholder, and the only failure of [fmt] is the AssertionFailure
    "Not enough values to format string.".  A template without
    placeholder is returned as it is.  Since [fmt] searches the text it
    has just substituted, a value that is itself the placeholder is
    swallowed: it is replaced by the next value, as if it had not been
    given. *)
Theorem fmt_leaves_no_placeholder (aString : string) (aValues : list (option string)) :
  (forall r, fmt aString aValues = Return r -> noPlaceholder r) /\
  (forall e, fmt aString aValues = Throw e ->
             e = mkError "AssertionFailure" "Not enough values to format string.") /\
  (noPlaceholder aString -> fmt aString aValues = Return aString) /\
  (forall p r vs, noPlaceholder p -> endsPercent p = false ->
     fmt (p +:+ "%s" +:+ r) (Some "%s" :: vs) = fmt (p +:+ "%s" +:+ r) vs).
Proof.
  split; [|split; [|split]].
  - revert aString. induction aValues as [|v vs IH]; intros s r; cbn [fmt];
      destruct (Str.indexOf "%s" s) as [pos|] eqn:Hi; try discriminate.
    + now intros [= <-].
    + apply IH.
    + now intros [= <-].
  - revert aString. induction aValues as [|v vs IH]; intros s e; cbn [fmt];
      destruct (Str.indexOf "%s" s) as [pos|] eqn:Hi; try discriminate.
    + now intros [= <-].
    + apply IH.
  - apply fmt_done.
  - intros p r vs Hp He. now rewrite fmt_subst.
Qed.

(** X5 on a value that is the placeholder itself. *)
Lemma fmt_leaves_no_placeholder_witness :
  fmt "%s" [Some "%s"; Some "x"] = Return "x" /\ noPlaceholder "x".
Proof.
  assert (fmt "%s" [Some "%s"; Some "x"] = Return "x") as H by reflexivity.
  split; [exact H|].
  exact (proj1 (fmt_leaves_no_placeholder "%s" [Some "%s"; Some "x"]) "x" H).
Defined.

(** ** The catalogs *)

Section CatalogMore.







End CatalogMore.







(** ** The instance registry *)

Section RegistryMore.


Lemma addListenerController_present aId it s :
  registry_items s !! aId = Some it ->
  AKObjectRegistry.addListenerController aId s =
  (Return (next_controller s),
   mkState (ui_items s) (component_items s) (class_names s)
           (<[aId := mkRegistered (instances it) (controllers it ++ [next_controller s])]>
              (registry_items s))
           (next_object s) (S (next_controller s)) (host_log s)).
Proof.
  intros Hit. unfold AKObjectRegistry.addListenerController, bind, reads, lift, throw.
  rewrite Hit. rewrite bool_decide_eq_true_2 by eauto. reflexivity.
Qed.

Lemma addListenerController_absent aId s :
  registry_items s !! aId = None ->
  AKObjectRegistry.addListenerController aId s =
  (Throw (mkError "AssertionFailure" "Assertion failure."), s).
Proof.
  intros Hit. unfold AKObjectRegistry.addListenerController, bind, reads, lift, throw.
  rewrite Hit. rewrite bool_decide_eq_false_2 by (intros [? ?]; discriminate). reflexivity.
Qed.



End RegistryMore.





(** ** What a step of [get] can do *)

Section Steps.

Lemma construct_Throw c el s e s' : construct c el s = (Throw e, s') -> s' = s.
Proof.
  unfold construct, bind, reads.
  destruct (AKAssert _ s) as [[u|e1] s1] eqn:E1; apply AKAssert_state in E1 as ->;
    [|now intros [= _ <-]].
  destruct (validateElement c el s) as [[[]|e2] s1] eqn:E2;
    apply validateElement_state in E2 as ->; [discriminate | now intros [= _ <-]].
Qed.

Lemma register_made o aId s :
  isNonEmptyStr (Some aId) = true ->
  instanceAt s aId (AKObjectRegistry.key (obj_class o) s) = None ->
  AKObjectRegistry.register o aId (allocated s) = (Return o, made o aId s).
Proof.
  intros Hid Hnone.
  unfold AKObjectRegistry.register, bind, lift, reads, ret, modify, assert, assert_msg.
  rewrite Hid. unfold instanceAt in Hnone. unfold made, entryOf.
  change (registry_items (allocated s)) with (registry_items s).
  change (AKObjectRegistry.key (obj_class o) (allocated s))
    with (AKObjectRegistry.key (obj_class o) s).
  destruct (registry_items s !! aId) as [it|] eqn:Hit.
  - cbn. rewrite Hit, Hnone. reflexivity.
  - cbn. rewrite lookup_insert_eq. cbn. rewrite lookup_empty. cbn.
    now rewrite insert_insert_eq.
Qed.

Lemma addListenerController_listening aId s :
  is_Some (registry_items s !! aId) ->
  AKObjectRegistry.addListenerController aId s = (Return (next_controller s), listening aId s).
Proof.
  intros [it Hit]. rewrite (addListenerController_present aId it s Hit).
  unfold listening, entryOf. now rewrite Hit.
Qed.

(** A failing [get] has failed before anything was changed. *)
Lemma get_Throw_state el T s e s' :
  AKObjectManager.get el T s = (Throw e, s') -> s' = s.
Proof.
  unfold AKObjectManager.get, bind, lift, assert, assert_msg. cbn [namedError].
  destruct (isNonEmptyStr (Some (el_id el))) eqn:Hid; [|now intros [= _ <-]].
  destruct (isNonEmptyStr (Some T)) eqn:HT; [|now intros [= _ <-]].
  destruct (AKObjectManager.selectClass el T s) as [[[c|]|e0] s1] eqn:Hsel;
    pose proof (selectClass_state _ _ _ _ _ Hsel) as ->.
  - rewrite has_unfold. unfold assert, assert_msg.
    rewrite toLowerCase_nonempty, Hid.
    destruct (instanceAt s _ _) as [o'|] eqn:Hat.
    + rewrite bool_decide_eq_true_2 by eauto.
      now rewrite (getAKObject_hit _ _ _ _ Hat).
    + rewrite bool_decide_eq_false_2 by (intros [? ?]; discriminate).
      destruct (construct c el s) as [[o1|e1] s1] eqn:Hc.
      * destruct (construct_Return _ _ _ _ _ Hc) as (Ho1 & -> & _ & _).
        rewrite register_made;
          [|now rewrite toLowerCase_nonempty | now rewrite Ho1].
        destruct (init_Returns o1 (made o1 (Str.toLowerCase (el_id el)) s)) as (s2 & ->);
          [|discriminate].
        rewrite Ho1. cbn. rewrite lookup_insert_eq. eauto.
      * apply construct_Throw in Hc as ->. now intros [= _ <-].
  - unfold AKObjectManager.invalidTypecast, throw.
    destruct (fmt _ _); now intros [= _ <-].
  - now intros [= _ <-].
Qed.

End Steps.

(** ** Relations kept by every operation

    A relation between the state before and the state after that is
    reflexive, transitive and kept by the few places where the code
    writes the state is kept by the operations built from them. *)

Section Keeping.

Context (R : State -> State -> Prop).
Hypothesis R_refl : forall s, R s s.
Hypothesis R_trans : forall s1 s2 s3, R s1 s2 -> R s2 s3 -> R s1 s3.

Lemma keeps_ret {A} (a : A) : keeps R (ret a).
Proof. intros s r s' [= _ <-]. apply R_refl. Qed.

Lemma keeps_throw {A} e : keeps R (@throw A e).
Proof. intros s r s' [= _ <-]. apply R_refl. Qed.

Lemma keeps_lift {A} (o : Outcome A) : keeps R (lift o).
Proof. intros s r s' [= _ <-]. apply R_refl. Qed.

Lemma keeps_reads {A} (f : State -> A) : keeps R (reads f).
Proof. intros s r s' [= _ <-]. apply R_refl. Qed.

Lemma keeps_bind {A B} (m : M A) (k : A -> M B) :
  keeps R m -> (forall a, keeps R (k a)) -> keeps R (bind m k).
Proof.
  intros Hm Hk s r s'. unfold bind.
  destruct (m s) as [[a|e] s1] eqn:E; apply Hm in E.
  - intros E2. apply Hk in E2. eapply R_trans; eassumption.
  - now intros [= _ <-].
Qed.

Lemma keeps_forEach {A} (f : A -> M unit) l :
  (forall x, keeps R (f x)) -> keeps R (forEach f l).
Proof.
  intros Hf. induction l as [|x l IH]; [apply keeps_ret|].
  cbn [forEach]. apply keeps_bind; [apply Hf | intros _; exact IH].
Qed.

Hypothesis R_logged : forall c s, (forall x, c <> Abort x) -> R s (logged c s).
Hypothesis R_listening :
  forall aId s, is_Some (registry_items s !! aId) -> R s (listening aId s).
Hypothesis R_made :
  forall o aId s,
    obj_ref o = next_object s -> Str.toLowerCase (el_id (obj_el o)) = aId ->
    isNonEmptyStr (Some aId) = true ->
    instanceAt s aId (AKObjectRegistry.key (obj_class o) s) = None ->
    R s (made o aId s).

Lemma keeps_log c : (forall x, c <> Abort x) -> keeps R (log c).
Proof. intros Hc s r s' [= _ <-]. now apply R_logged. Qed.

Lemma keeps_addListenerController aId : keeps R (AKObjectRegistry.addListenerController aId).
Proof.
  intros s r s'. destruct (registry_items s !! aId) as [it|] eqn:Hit.
  - rewrite addListenerController_listening by eauto. intros [= _ <-].
    apply R_listening. eauto.
  - rewrite addListenerController_absent by exact Hit. intros [= _ <-]. apply R_refl.
Qed.

Lemma keeps_listenerAdded el : keeps R (listenerAdded el).
Proof. apply keeps_addListenerController. Qed.

Lemma keeps_setCSSFromAttributes el atts : keeps R (setCSSFromAttributes el atts).
Proof.
  apply keeps_forEach. intros a. destruct (hasAttribute el a); apply keeps_log; discriminate.
Qed.

Lemma keeps_init o : keeps R (init o).
Proof.
  unfold init, afterInitialization, applyClass.
  apply keeps_bind; [|intros _; apply keeps_bind; intros; apply keeps_ret].
  destruct (inheritsFrom _ _); [|apply keeps_ret].
  unfold AKUiElement_applyClass.
  apply keeps_bind; [apply keeps_log; discriminate | intros _].
  apply keeps_bind; [|intros _; apply keeps_setCSSFromAttributes].
  apply keeps_forEach. intros h.
  apply keeps_bind; [apply keeps_listenerAdded | intros sg; apply keeps_log; discriminate].
Qed.

Lemma keeps_get el T : keeps R (AKObjectManager.get el T).
Proof.
  intros s [o|e] s' Hget.
  - destruct (get_inv _ _ _ _ _ Hget) as (Hid & _ & _).
    destruct (get_found_or_made _ _ _ _ _ Hget)
      as (c & _ & _ & _ & [[_ ->] | (Hnone & Ho & _ & s2 & _ & Hreg & Hinit)]);
      [apply R_refl|].
    rewrite register_made in Hreg;
      [|now rewrite toLowerCase_nonempty | now rewrite Ho].
    injection Hreg as <-. apply keeps_init in Hinit.
    eapply R_trans; [|exact Hinit].
    apply R_made; [now rewrite Ho | now rewrite Ho | now rewrite toLowerCase_nonempty |].
    now rewrite Ho.
  - apply get_Throw_state in Hget as ->. apply R_refl.
Qed.

Lemma keeps_enhance el : keeps R (AKObjectManager.enhance el).
Proof.
  unfold AKObjectManager.enhance. apply keeps_bind.
  - destruct (hasAttribute _ _); [|apply keeps_ret].
    destruct (getAttribute _ _); [|apply keeps_ret].
    apply keeps_bind; [apply keeps_get | intros; apply keeps_ret].
  - intros _. apply keeps_forEach. intros T.
    apply keeps_bind; [apply keeps_get | intros; apply keeps_ret].
Qed.

Lemma keeps_getByClass el c : keeps R (getByClass el c).
Proof.
  unfold getByClass. apply keeps_bind; [apply keeps_reads | intros [n|]].
  - apply keeps_bind; [apply keeps_get | intros; apply keeps_ret].
  - repeat (apply keeps_bind; [apply keeps_lift | intros _]). apply keeps_ret.
Qed.

Lemma keeps_parentLoop is_ n from :
  length (ancestors from) <= n -> keeps R (parentLoop is_ from).
Proof.
  revert from. induction n as [|n IH]; intros from Hlen.
  - destruct from as [nd i a [p|]]; [cbn in Hlen; lia|]. cbn. apply keeps_ret.
  - destruct from as [nd i a [p|]]; [|cbn; apply keeps_ret].
    cbn [parentLoop el_parentElement]. cbn in Hlen.
    apply keeps_bind; [apply keeps_reads | intros [c|]];
      [apply keeps_getByClass | apply IH; lia].
Qed.

Lemma keeps_parent o : keeps R (parent o).
Proof.
  unfold parent, AKUiElement_parent, AKComponent_parent, AKObject_parent.
  destruct (inheritsFrom _ AKUiElement); [eapply keeps_parentLoop; reflexivity|].
  destruct (inheritsFrom _ AKComponent); [eapply keeps_parentLoop; reflexivity|].
  apply keeps_bind; [apply keeps_reads | intros cn].
  apply keeps_bind; [apply keeps_lift | intros m; apply keeps_throw].
Qed.

Hypothesis R_purged : forall aId s, R s (purged aId s).

Lemma keeps_delete el : keeps R (AKObjectManager.delete el).
Proof. intros s r s'. rewrite delete_unfold. intros [= _ <-]. apply R_purged. Qed.

Lemma keeps_observeDestroy l : keeps R (observeDestroy l).
Proof.
  apply keeps_forEach. intros mutation. unfold observeMutation.
  destruct (bool_decide _); [|apply keeps_ret].
  apply keeps_forEach. intros nd. unfold observeNode.
  destruct (Nat.eqb _ _); [|apply keeps_ret].
  destruct nd; try apply keeps_ret.
  apply keeps_bind; [apply keeps_log; discriminate | intros _; apply keeps_delete].
Qed.

Hypothesis R_classes :
  forall s s', registry_items s' = registry_items s -> next_object s' = next_object s ->
               next_controller s' = next_controller s -> host_log s' = host_log s ->
               R s s'.

Lemma keeps_catalog_register k n c : keeps R (ClassRegistry.register k n c).
Proof.
  intros s r s' H. apply R_classes.
  all: revert H; unfold ClassRegistry.register, bind, lift, reads, ret, modify, assert, assert_msg;
    destruct (isNonEmptyStr _); [|now intros [= _ <-]];
    destruct (ClassRegistry.find k n s); intros [= _ <-]; destruct k; reflexivity.
Qed.

Lemma keeps_catalog_unregister k n : keeps R (ClassRegistry.unregister k n).
Proof.
  intros s r s' H. apply R_classes.
  all: revert H; unfold ClassRegistry.unregister, ret, modify;
    destruct (isNonEmptyStr _); intros [= _ <-]; destruct k; reflexivity.
Qed.

End Keeping.

(** ** The walk of [enhanceElement] *)

Section Walk.

Lemma Subtree_nested_ind (P : Subtree -> Prop) :
  (forall e children, Forall P children -> P (Sub e children)) -> forall t, P t.
Proof.
  intros H. fix IH 1. intros [e children]. apply H.
  induction children as [|c l IHl]; constructor; [apply IH | exact IHl].
Qed.

Lemma forEach_app {A} (f : A -> M unit) l1 l2 s :
  forEach f (l1 ++ l2) s =
  match forEach f l1 s with
  | (Return _, s1) => forEach f l2 s1
  | (Throw e, s1) => (Throw e, s1)
  end.
Proof.
  revert s. induction l1 as [|x l1 IH]; intros s; [reflexivity|].
  cbn [forEach app]. unfold bind.
  destruct (f x s) as [[u|e] s1]; [apply IH | reflexivity].
Qed.

Lemma enhanceElement_unfold e children s :
  enhanceElement (Sub e children) s =
  (AKObjectManager.enhance e ;;; forEach enhanceElement children) s.
Proof.
  cbn [enhanceElement]. unfold bind at 1 3.
  destruct (AKObjectManager.enhance e s) as [[u|err] s1]; [|reflexivity].
  assert (forall l st,
            (fix each (l : list Subtree) : M unit :=
               match l with
               | [] => ret tt
               | child :: rest => enhanceElement child ;;; each rest
               end) l st = forEach enhanceElement l st) as Heach.
  { induction l as [|x l IH]; intros st; [reflexivity|].
    cbn [forEach]. unfold bind. destruct (enhanceElement x st) as [[u'|e'] s2]; [|reflexivity].
    apply IH. }
  rewrite <- Heach. now destruct children.
Qed.

Lemma enhanceElement_forEach t :
  forall s, enhanceElement t s = forEach AKObjectManager.enhance (preorder t) s.
Proof.
  induction t as [e children IH] using Subtree_nested_ind. intros s.
  rewrite enhanceElement_unfold. cbn [preorder forEach]. unfold bind.
  destruct (AKObjectManager.enhance e s) as [[u|err] s1]; [|reflexivity].
  clear s. revert s1. induction IH as [|c l Hc _ IHl]; intros s1; [reflexivity|].
  cbn [forEach flat_map]. rewrite forEach_app. unfold bind.
  rewrite Hc. destruct (forEach _ (preorder c) s1) as [[u'|e'] s2]; [|reflexivity].
  apply IHl.
Qed.

Lemma keeps_enhanceElement (R : State -> State -> Prop) t :
  (forall s, R s s) -> (forall s1 s2 s3, R s1 s2 -> R s2 s3 -> R s1 s3) ->
  (forall el, keeps R (AKObjectManager.enhance el)) ->
  keeps R (enhanceElement t).
Proof.
  intros Hrefl Htrans Hen s r s'. rewrite enhanceElement_forEach.
  apply keeps_forEach; assumption.
Qed.

End Walk.

(** ** The tables after each write *)

Section Orders.

Lemma lower_lower s : Str.toLowerCase (Str.toLowerCase s) = Str.toLowerCase s.
Proof. now rewrite <- (lower_upper (Str.toLowerCase s)), upper_lower, lower_upper. Qed.

Lemma lookup_made o aId s aId' :
  registry_items (made o aId s) !! aId' =
  if decide (aId' = aId)
  then Some (mkRegistered
               (<[AKObjectRegistry.key (obj_class o) s := o]> (instances (entryOf s aId)))
               (controllers (entryOf s aId)))
  else registry_items s !! aId'.
Proof.
  unfold made. cbn. destruct (decide (aId' = aId)) as [->|Hne].
  - apply lookup_insert_eq.
  - now apply lookup_insert_ne.
Qed.

Lemma instanceAt_made o aId s aId' k :
  instanceAt (made o aId s) aId' k =
  if bool_decide (aId' = aId /\ k = AKObjectRegistry.key (obj_class o) s)
  then Some o else instanceAt s aId' k.
Proof.
  unfold instanceAt. rewrite lookup_made.
  destruct (decide (aId' = aId)) as [->|Hne].
  - cbn. destruct (decide (k = AKObjectRegistry.key (obj_class o) s)) as [->|Hk].
    + rewrite bool_decide_eq_true_2 by done. apply lookup_insert_eq.
    + rewrite bool_decide_eq_false_2 by (intros [_ ?]; done).
      rewrite lookup_insert_ne by done. unfold entryOf.
      destruct (registry_items s !! aId); [reflexivity | apply lookup_empty].
  - now rewrite bool_decide_eq_false_2 by (intros [? _]; done).
Qed.

Lemma held_made o aId s aId' : held (made o aId s) aId' = held s aId'.
Proof.
  unfold held, entryOf at 1. rewrite lookup_made.
  destruct (decide (aId' = aId)) as [->|Hne]; reflexivity.
Qed.

Lemma lookup_listening aId s aId' :
  registry_items (listening aId s) !! aId' =
  if decide (aId' = aId)
  then Some (mkRegistered (instances (entryOf s aId))
                          (controllers (entryOf s aId) ++ [next_controller s]))
  else registry_items s !! aId'.
Proof.
  unfold listening. cbn. destruct (decide (aId' = aId)) as [->|Hne].
  - apply lookup_insert_eq.
  - now apply lookup_insert_ne.
Qed.

Lemma instanceAt_listening aId s aId' k :
  is_Some (registry_items s !! aId) ->
  instanceAt (listening aId s) aId' k = instanceAt s aId' k.
Proof.
  intros [it Hit]. unfold instanceAt. rewrite lookup_listening.
  destruct (decide (aId' = aId)) as [->|Hne]; [|reflexivity].
  unfold entryOf. now rewrite Hit.
Qed.

Lemma held_listening aId s aId' :
  held (listening aId s) aId' =
  if decide (aId' = aId) then held s aId ++ [next_controller s] else held s aId'.
Proof.
  unfold held, entryOf at 1. rewrite lookup_listening.
  destruct (decide (aId' = aId)) as [->|Hne]; reflexivity.
Qed.

Lemma lookup_purged aId s aId' :
  registry_items (purged aId s) !! aId' =
  if decide (aId' = aId) then None else registry_items s !! aId'.
Proof.
  destruct (decide (aId' = aId)) as [->|Hne]; [apply purged_gone|].
  unfold purged. destruct (registry_items s !! aId); [|reflexivity].
  cbn. now apply lookup_delete_ne.
Qed.

Lemma instanceAt_purged aId s aId' k :
  instanceAt (purged aId s) aId' k =
  if decide (aId' = aId) then None else instanceAt s aId' k.
Proof.
  unfold instanceAt. rewrite lookup_purged. now destruct (decide (aId' = aId)).
Qed.

Lemma held_purged aId s aId' :
  held (purged aId s) aId' = if decide (aId' = aId) then [] else held s aId'.
Proof.
  unfold held, entryOf at 1. rewrite lookup_purged. now destruct (decide (aId' = aId)).
Qed.

Lemma omap_aborts (cs : list nat) :
  omap (fun h => match h with Abort c => Some c | _ => None end) (Abort <$> cs) = cs.
Proof. induction cs as [|c cs IH]; [reflexivity|]. cbn. now rewrite IH. Qed.

Lemma aborted_purged aId s :
  abortedControllers (purged aId s) = abortedControllers s ++ held s aId.
Proof.
  unfold abortedControllers, purged, held, entryOf.
  destruct (registry_items s !! aId) as [it|]; cbn.
  - now rewrite omap_app, omap_aborts.
  - now rewrite app_nil_r.
Qed.

Lemma aborted_logged c s :
  (forall x, c <> Abort x) -> abortedControllers (logged c s) = abortedControllers s.
Proof.
  intros Hc. unfold abortedControllers, logged. cbn. rewrite omap_app. cbn.
  destruct c as [? ?|? ?|? ? ?|? ?|x]; try apply app_nil_r. now destruct (Hc x).
Qed.

(** *** The instances *)

Lemma instancesInOrder_initial : instancesInOrder initial.
Proof.
  split; [|split].
  - intros aId it H. cbn in H. now rewrite lookup_empty in H.
  - intros aId k o H. unfold instanceAt in H. cbn in H. now rewrite lookup_empty in H.
  - intros aId k o aId' k' o' H. unfold instanceAt in H. cbn in H.
    now rewrite lookup_empty in H.
Qed.

Lemma instancesInOrder_fewer s s' :
  (forall aId, is_Some (registry_items s' !! aId) -> is_Some (registry_items s !! aId)) ->
  (forall aId k o, instanceAt s' aId k = Some o -> instanceAt s aId k = Some o) ->
  next_object s <= next_object s' ->
  instancesInOrder s -> instancesInOrder s'.
Proof.
  intros Hdom Hat Hn (H1 & H2 & H3). split; [|split].
  - intros aId it Hit. destruct (Hdom aId) as [it0 Hit0]; [eauto|]. now apply (H1 aId it0).
  - intros aId k o Ho. apply Hat in Ho. destruct (H2 _ _ _ Ho). split; [assumption | lia].
  - intros aId k o aId' k' o' Ho Ho'. apply Hat in Ho, Ho'. now apply (H3 _ _ _ _ _ _ Ho Ho').
Qed.

Lemma instancesInOrder_logged c s : instancesInOrder s -> instancesInOrder (logged c s).
Proof. apply instancesInOrder_fewer; auto. Qed.

Lemma instancesInOrder_listening aId s :
  is_Some (registry_items s !! aId) -> instancesInOrder s -> instancesInOrder (listening aId s).
Proof.
  intros Hit. apply instancesInOrder_fewer; [| |reflexivity].
  - intros aId'. rewrite lookup_listening. now destruct (decide (aId' = aId)) as [->|].
  - intros aId' k o. now rewrite instanceAt_listening.
Qed.

Lemma instancesInOrder_purged aId s : instancesInOrder s -> instancesInOrder (purged aId s).
Proof.
  apply instancesInOrder_fewer.
  - intros aId'. rewrite lookup_purged. destruct (decide (aId' = aId)); [|done].
    intros [? ?]; discriminate.
  - intros aId' k o. rewrite instanceAt_purged. now destruct (decide (aId' = aId)).
  - unfold purged. now destruct (registry_items s !! aId).
Qed.

Lemma instancesInOrder_classes s s' :
  registry_items s' = registry_items s -> next_object s' = next_object s ->
  instancesInOrder s -> instancesInOrder s'.
Proof.
  intros Hr Hn. apply instancesInOrder_fewer.
  - intros aId. now rewrite Hr.
  - intros aId k o. unfold instanceAt. now rewrite Hr.
  - now rewrite Hn.
Qed.

Lemma instancesInOrder_made o aId s :
  obj_ref o = next_object s -> Str.toLowerCase (el_id (obj_el o)) = aId ->
  isNonEmptyStr (Some aId) = true ->
  instanceAt s aId (AKObjectRegistry.key (obj_class o) s) = None ->
  instancesInOrder s -> instancesInOrder (made o aId s).
Proof.
  intros Href Hlow Hne Hnone (H1 & H2 & H3). split; [|split].
  - intros aId' it. rewrite lookup_made. destruct (decide (aId' = aId)) as [->|Hd].
    + intros _. split; [exact Hne|]. rewrite <- Hlow. apply lower_lower.
    + apply H1.
  - intros aId' k o'. rewrite instanceAt_made. case_bool_decide as Hd.
    + intros [= <-]. destruct Hd as [-> _]. split; [exact Hlow|]. cbn. lia.
    + intros Ho'. destruct (H2 _ _ _ Ho'). split; [assumption|]. cbn. lia.
  - intros aId1 k1 o1 aId2 k2 o2. rewrite !instanceAt_made.
    case_bool_decide as Hd1; case_bool_decide as Hd2.
    + destruct Hd1 as [-> ->], Hd2 as [-> ->]. done.
    + intros [= <-] Ho2 Heq. destruct (H2 _ _ _ Ho2). lia.
    + intros Ho1 [= <-] Heq. destruct (H2 _ _ _ Ho1). lia.
    + apply H3.
Qed.

(** *** The controllers *)

Lemma controllersInOrder_initial : controllersInOrder initial.
Proof.
  assert (forall aId, held initial aId = []) as Hheld.
  { intros aId. unfold held, entryOf. cbn. now rewrite lookup_empty. }
  split; [|split; [|split; [|split]]].
  - intros aId c. rewrite Hheld. now intros ?%elem_of_nil.
  - intros aId. rewrite Hheld. constructor.
  - intros aId aId' c. rewrite Hheld. now intros ?%elem_of_nil.
  - intros c. now intros ?%elem_of_nil.
  - constructor.
Qed.

Lemma controllersInOrder_same s s' :
  (forall aId, held s' aId = held s aId) ->
  abortedControllers s' = abortedControllers s ->
  next_controller s' = next_controller s ->
  controllersInOrder s -> controllersInOrder s'.
Proof.
  intros Hh Ha Hn (H1 & H2 & H3 & H4 & H5).
  split; [|split; [|split; [|split]]].
  - intros aId c. rewrite Hh, Ha, Hn. apply H1.
  - intros aId. rewrite Hh. apply H2.
  - intros aId aId' c. rewrite !Hh. apply H3.
  - intros c. rewrite Ha, Hn. apply H4.
  - now rewrite Ha.
Qed.

Lemma controllersInOrder_logged c s :
  (forall x, c <> Abort x) -> controllersInOrder s -> controllersInOrder (logged c s).
Proof.
  intros Hc. apply controllersInOrder_same; [reflexivity | now apply aborted_logged | reflexivity].
Qed.

Lemma controllersInOrder_made o aId s :
  controllersInOrder s -> controllersInOrder (made o aId s).
Proof.
  apply controllersInOrder_same; [intros; apply held_made | reflexivity | reflexivity].
Qed.

Lemma controllersInOrder_classes s s' :
  registry_items s' = registry_items s -> next_controller s' = next_controller s ->
  host_log s' = host_log s ->
  controllersInOrder s -> controllersInOrder s'.
Proof.
  intros Hr Hn Hl. apply controllersInOrder_same; [| |exact Hn].
  - intros aId. unfold held, entryOf. now rewrite Hr.
  - unfold abortedControllers. now rewrite Hl.
Qed.

Lemma controllersInOrder_listening aId s :
  controllersInOrder s -> controllersInOrder (listening aId s).
Proof.
  intros (H1 & H2 & H3 & H4 & H5). unfold controllersInOrder.
  change (abortedControllers (listening aId s)) with (abortedControllers s).
  change (next_controller (listening aId s)) with (S (next_controller s)).
  split; [|split; [|split; [|split]]].
  - intros aId' c. rewrite held_listening. destruct (decide (aId' = aId)) as [->|Hd].
    + intros [Hc | ->%list_elem_of_singleton]%elem_of_app.
      * destruct (H1 _ _ Hc). split; [lia | assumption].
      * split; [lia|]. intros Hc%H4. lia.
    + intros Hc. destruct (H1 _ _ Hc). split; [lia | assumption].
  - intros aId'. rewrite held_listening. destruct (decide (aId' = aId)) as [->|Hd]; [|apply H2].
    apply NoDup_app. split; [apply H2|]. split; [|apply NoDup_singleton].
    intros c Hc ->%list_elem_of_singleton. destruct (H1 _ _ Hc). lia.
  - intros aId1 aId2 c. rewrite !held_listening.
    destruct (decide (aId1 = aId)) as [->|Hd1], (decide (aId2 = aId)) as [->|Hd2]; try done.
    + intros [Hc | ->%list_elem_of_singleton]%elem_of_app Hc2; [now apply (H3 _ _ c)|].
      destruct (H1 _ _ Hc2). lia.
    + intros Hc1 [Hc | ->%list_elem_of_singleton]%elem_of_app; [now apply (H3 _ _ c)|].
      destruct (H1 _ _ Hc1). lia.
    + apply H3.
  - intros c Hc%H4. lia.
  - exact H5.
Qed.

Lemma controllersInOrder_purged aId s :
  controllersInOrder s -> controllersInOrder (purged aId s).
Proof.
  intros (H1 & H2 & H3 & H4 & H5).
  assert (next_controller (purged aId s) = next_controller s) as Hn
    by (unfold purged; now destruct (registry_items s !! aId)).
  unfold controllersInOrder. rewrite aborted_purged, Hn.
  split; [|split; [|split; [|split]]].
  - intros aId' c. rewrite held_purged. destruct (decide (aId' = aId)) as [->|Hd];
      [now intros ?%elem_of_nil|].
    intros Hc. destruct (H1 _ _ Hc) as [Hlt Hna]. split; [exact Hlt|].
    intros [Ha | Hh]%elem_of_app; [now apply Hna|]. now apply Hd, (H3 _ _ c).
  - intros aId'. rewrite held_purged. destruct (decide (aId' = aId)); [constructor | apply H2].
  - intros aId1 aId2 c. rewrite !held_purged.
    destruct (decide (aId1 = aId)); [now intros ?%elem_of_nil|].
    destruct (decide (aId2 = aId)); [now intros _ ?%elem_of_nil|]. apply H3.
  - intros c [Ha | Hh]%elem_of_app; [now apply H4 | now destruct (H1 _ _ Hh)].
  - apply NoDup_app. split; [exact H5|]. split; [|apply H2].
    intros c Ha Hh. now destruct (H1 _ _ Hh).
Qed.

(** *** Growth *)

Lemma grown_refl s : grown s s.
Proof.
  split; [apply sameClasses_refl|]. split; [auto|]. split.
  - intros aId it Hit. exists it, []. now rewrite app_nil_r.
  - split; [exists []; now rewrite app_nil_r|]. repeat split; lia.
Qed.

Lemma grown_trans s1 s2 s3 : grown s1 s2 -> grown s2 s3 -> grown s1 s3.
Proof.
  intros (Hc & Hi & Hk & [l Hl] & Ha & Ho & Hn) (Hc' & Hi' & Hk' & [l' Hl'] & Ha' & Ho' & Hn').
  split; [eapply sameClasses_trans; eassumption|]. split; [auto|]. split.
  - intros aId it Hit. destruct (Hk _ _ Hit) as (it2 & m & Hit2 & Hm).
    destruct (Hk' _ _ Hit2) as (it3 & m' & Hit3 & Hm').
    exists it3, (m ++ m'). split; [exact Hit3|]. now rewrite Hm', Hm, app_assoc.
  - split; [exists (l ++ l'); now rewrite Hl', Hl, app_assoc|].
    split; [congruence|]. split; lia.
Qed.

Lemma grown_logged c s : (forall x, c <> Abort x) -> grown s (logged c s).
Proof.
  intros Hc. split; [repeat split|]. split; [auto|]. split.
  - intros aId it Hit. exists it, []. now rewrite app_nil_r.
  - split; [now exists [c]|]. split; [now apply aborted_logged|]. cbn. split; lia.
Qed.

Lemma grown_listening aId s :
  is_Some (registry_items s !! aId) -> grown s (listening aId s).
Proof.
  intros [it0 Hit0]. split; [repeat split|]. split.
  - intros aId' k o. rewrite instanceAt_listening; eauto.
  - split.
    + intros aId' it Hit. rewrite lookup_listening.
      destruct (decide (aId' = aId)) as [->|Hd].
      * eexists _, [next_controller s]. split; [reflexivity|]. cbn. unfold entryOf.
        now rewrite Hit.
      * exists it, []. now rewrite app_nil_r.
    + split; [exists []; cbn; now rewrite app_nil_r|]. split; [reflexivity|]. cbn. split; lia.
Qed.

Lemma grown_made o aId s :
  instanceAt s aId (AKObjectRegistry.key (obj_class o) s) = None ->
  grown s (made o aId s).
Proof.
  intros Hnone. split; [repeat split|]. split.
  - intros aId' k o' Ho'. rewrite instanceAt_made. case_bool_decide as Hd; [|exact Ho'].
    destruct Hd as [-> ->]. congruence.
  - split.
    + intros aId' it Hit. rewrite lookup_made.
      destruct (decide (aId' = aId)) as [->|Hd].
      * eexists _, []. split; [reflexivity|]. cbn. unfold entryOf.
        now rewrite Hit, app_nil_r.
      * exists it, []. now rewrite app_nil_r.
    + split; [exists []; cbn; now rewrite app_nil_r|]. split; [reflexivity|]. cbn. split; lia.
Qed.

End Orders.

(** ** The tables stay in order *)

Section Kept.

Lemma through_refl (I : State -> Prop) s : I s -> I s.
Proof. auto. Qed.

Lemma through_trans (I : State -> Prop) s1 s2 s3 :
  (I s1 -> I s2) -> (I s2 -> I s3) -> I s1 -> I s3.
Proof. auto. Qed.

Lemma withTabPanel_instancesInOrder : instancesInOrder withTabPanel.
Proof.
  apply (instancesInOrder_classes initial); [reflexivity | reflexivity |].
  apply instancesInOrder_initial.
Qed.

Lemma get_instancesInOrder el T : preserves instancesInOrder (AKObjectManager.get el T).
Proof.
  apply keeps_get.
  - apply through_refl.
  - apply through_trans.
  - intros c s _. apply instancesInOrder_logged.
  - apply instancesInOrder_listening.
  - apply instancesInOrder_made.
Qed.

Lemma get_grown el T : keeps grown (AKObjectManager.get el T).
Proof.
  apply keeps_get.
  - apply grown_refl.
  - apply grown_trans.
  - apply grown_logged.
  - apply grown_listening.
  - intros o aId s _ _ _. apply grown_made.
Qed.

End Kept.

(** X12.  The instance tables are in order in the initial state and stay
    so under every operation of the library, whatever its outcome
    ([get], [enhance], [enhanceElement], [delete], [listenerAdded],
    [parent], [observeDestroy], and [register] and [unregister] of the
    catalogs): every entry of the registry sits under a non-empty
    lower-case identity, every instance sits under the lower-cased
    identity of its own element and carries a reference handed out
    before, and no reference sits in two slots. *)
Theorem instances_stay_in_order :
  instancesInOrder initial /\
  (forall el T, preserves instancesInOrder (AKObjectManager.get el T)) /\
  (forall el, preserves instancesInOrder (AKObjectManager.enhance el)) /\
  (forall t, preserves instancesInOrder (enhanceElement t)) /\
  (forall el, preserves instancesInOrder (AKObjectManager.delete el)) /\
  (forall el, preserves instancesInOrder (listenerAdded el)) /\
  (forall o, preserves instancesInOrder (parent o)) /\
  (forall l, preserves instancesInOrder (observeDestroy l)) /\
  (forall k n c, preserves instancesInOrder (ClassRegistry.register k n c)) /\
  (forall k n, preserves instancesInOrder (ClassRegistry.unregister k n)).
Proof.
  pose proof (through_refl instancesInOrder) as Hrefl.
  pose proof (through_trans instancesInOrder) as Htrans.
  assert (forall c s, (forall x, c <> Abort x) ->
            instancesInOrder s -> instancesInOrder (logged c s)) as Hlog
    by (intros c s _; apply instancesInOrder_logged).
  assert (forall el, preserves instancesInOrder (AKObjectManager.enhance el)) as Hen.
  { intros el. apply keeps_enhance; try assumption.
    - apply instancesInOrder_listening.
    - apply instancesInOrder_made. }
  split; [apply instancesInOrder_initial|].
  split; [apply get_instancesInOrder|].
  split; [exact Hen|].
  split; [intros t; now apply keeps_enhanceElement|].
  split; [intros el; apply keeps_delete; apply instancesInOrder_purged|].
  split; [intros el; apply keeps_listenerAdded; try assumption;
          apply instancesInOrder_listening|].
  split; [intros o; apply keeps_parent; try assumption;
          [apply instancesInOrder_listening | apply instancesInOrder_made]|].
  split; [intros l; apply keeps_observeDestroy; try assumption;
          apply instancesInOrder_purged|].
  split.
  - intros k n c. apply keeps_catalog_register.
    intros s s' Hr Hn _ _. now apply instancesInOrder_classes.
  - intros k n. apply keeps_catalog_unregister.
    intros s s' Hr Hn _ _. now apply instancesInOrder_classes.
Qed.

(** X13.  The abort controllers are in order in the initial state and
    stay so under every operation of the library, whatever its outcome:
    a controller held by the registry was handed out before, is held
    once and for one identity only and has not been aborted; and no
    controller is aborted twice or before it was handed out. *)
Theorem controllers_stay_in_order :
  controllersInOrder initial /\
  (forall el T, preserves controllersInOrder (AKObjectManager.get el T)) /\
  (forall el, preserves controllersInOrder (AKObjectManager.enhance el)) /\
  (forall t, preserves controllersInOrder (enhanceElement t)) /\
  (forall el, preserves controllersInOrder (AKObjectManager.delete el)) /\
  (forall el, preserves controllersInOrder (listenerAdded el)) /\
  (forall o, preserves controllersInOrder (parent o)) /\
  (forall l, preserves controllersInOrder (observeDestroy l)) /\
  (forall k n c, preserves controllersInOrder (ClassRegistry.register k n c)) /\
  (forall k n, preserves controllersInOrder (ClassRegistry.unregister k n)).
Proof.
  pose proof (through_refl controllersInOrder) as Hrefl.
  pose proof (through_trans controllersInOrder) as Htrans.
  pose proof controllersInOrder_logged as Hlog.
  assert (forall aId s, is_Some (registry_items s !! aId) ->
            controllersInOrder s -> controllersInOrder (listening aId s)) as Hlis
    by (intros aId s _; apply controllersInOrder_listening).
  assert (forall o aId s,
            obj_ref o = next_object s -> Str.toLowerCase (el_id (obj_el o)) = aId ->
            isNonEmptyStr (Some aId) = true ->
            instanceAt s aId (AKObjectRegistry.key (obj_class o) s) = None ->
            controllersInOrder s -> controllersInOrder (made o aId s)) as Hmade
    by (intros o aId s _ _ _ _; apply controllersInOrder_made).
  assert (forall el, preserves controllersInOrder (AKObjectManager.enhance el)) as Hen
    by (intros el; now apply keeps_enhance).
  split; [apply controllersInOrder_initial|].
  split; [intros el T; now apply keeps_get|].
  split; [exact Hen|].
  split; [intros t; now apply keeps_enhanceElement|].
  split; [intros el; apply keeps_delete; apply controllersInOrder_purged|].
  split; [intros el; now apply keeps_listenerAdded|].
  split; [intros o; now apply keeps_parent|].
  split; [intros l; apply keeps_observeDestroy; try assumption;
          apply controllersInOrder_purged|].
  split.
  - intros k n c. apply keeps_catalog_register.
    intros s s' Hr _ Hn Hl. now apply controllersInOrder_classes.
  - intros k n. apply keeps_catalog_unregister.
    intros s s' Hr _ Hn Hl. now apply controllersInOrder_classes.
Qed.


(** X15.  From a state whose instance tables are in order, let [get] on
    an element return [o] and a later [get] (any element, any name)
    return [o']: [o] belongs to an element with the identity of the
    first element up to case and carries a reference handed out before;
    if [o] and [o'] carry the same reference then they are the same
    instance, the two elements have the same identity up to case and the
    second call changed nothing; so two elements whose identities differ
    beyond case never share an instance. *)
Theorem same_reference_same_slot (s s1 s2 : State) (el el' : Element) (T T' : string)
    (o o' : AKInstance) :
  instancesInOrder s ->
  AKObjectManager.get el T s = (Return o, s1) ->
  AKObjectManager.get el' T' s1 = (Return o', s2) ->
  Str.toLowerCase (el_id (obj_el o)) = Str.toLowerCase (el_id el) /\
  obj_ref o < next_object s1 /\
  (obj_ref o = obj_ref o' ->
   o = o' /\ Str.toLowerCase (el_id el) = Str.toLowerCase (el_id el') /\ s2 = s1) /\
  (Str.toLowerCase (el_id el) <> Str.toLowerCase (el_id el') -> obj_ref o <> obj_ref o').
Proof.
  intros Hs Hget Hget'.
  pose proof (get_instancesInOrder el T s _ _ Hget Hs) as Hs1.
  pose proof (get_instancesInOrder el' T' s1 _ _ Hget' Hs1) as (_ & _ & Huniq).
  destruct (get_found_or_made _ _ _ _ _ Hget) as (c & _ & _ & Hat & _).
  destruct (get_found_or_made _ _ _ _ _ Hget') as (c' & _ & Hsame & Hat' & Hhow).
  destruct Hs1 as (_ & Hown & _). destruct (Hown _ _ _ Hat) as [Hid Hlt].
  pose proof (get_grown el' T' s1 _ _ Hget') as (_ & Hkeep & _).
  pose proof (Hkeep _ _ _ Hat) as Hat2.
  assert (obj_ref o = obj_ref o' ->
          o = o' /\ Str.toLowerCase (el_id el) = Str.toLowerCase (el_id el') /\ s2 = s1)
    as Hsame_ref.
  { intros Href. destruct (Huniq _ _ _ _ _ _ Hat2 Hat' Href) as [Hi Hk].
    rewrite <- Hi, <- Hk, Hat2 in Hat'. injection Hat' as <-.
    split; [reflexivity|]. split; [exact Hi|].
    destruct Hhow as [[_ ->] | (Hnone & _)]; [reflexivity|].
    rewrite <- Hi in Hnone. rewrite <- (className_same c' s1 s2 Hsame) in Hnone.
    rewrite <- Hk in Hnone. congruence. }
  split; [exact Hid|]. split; [exact Hlt|]. split; [exact Hsame_ref|].
  intros Hne Href. now destruct (Hsame_ref Href) as (_ & ? & _).
Qed.

(** X15 on the node [panel1], resolved twice. *)
Lemma same_reference_same_slot_witness :
  let first := AKObjectManager.get panel1 "TabPanel" withTabPanel in
  first = (Return (mkInstance 0 AKUiTabPanel panel1), snd first) /\
  obj_ref (mkInstance 0 AKUiTabPanel panel1) < next_object (snd first).
Proof.
  cbn zeta.
  assert (AKObjectManager.get panel1 "TabPanel" withTabPanel =
          (Return (mkInstance 0 AKUiTabPanel panel1),
           snd (AKObjectManager.get panel1 "TabPanel" withTabPanel))) as H
    by (vm_compute; reflexivity).
  assert (AKObjectManager.get panel1 "TabPanel"
            (snd (AKObjectManager.get panel1 "TabPanel" withTabPanel)) =
          (Return (mkInstance 0 AKUiTabPanel panel1),
           snd (AKObjectManager.get panel1 "TabPanel" withTabPanel))) as H'
    by (vm_compute; reflexivity).
  split; [exact H|].
  exact (proj1 (proj2 (same_reference_same_slot _ _ _ _ _ _ _ _ _
                         withTabPanel_instancesInOrder H H'))).
Defined.

(** ** Enhancing again *)

Section Settling.

Lemma forEach_settles {A} (f : A -> M unit) l :
  (forall x, keeps grown (f x)) ->
  (forall x s0 s1 s2, f x s0 = (Return tt, s1) -> grown s1 s2 -> f x s2 = (Return tt, s2)) ->
  forall s s', forEach f l s = (Return tt, s') ->
  forall x, x ∈ l -> f x s' = (Return tt, s').
Proof.
  intros Hgrow Hstable. induction l as [|y l IH]; intros s s' Hrun x Hx;
    [now apply elem_of_nil in Hx|].
  cbn [forEach] in Hrun. unfold bind in Hrun.
  destruct (f y s) as [[[]|e] s1] eqn:Hy; [|discriminate].
  apply elem_of_cons in Hx as [->|Hx]; [|now apply (IH s1)].
  apply (Hstable y s s1 s' Hy).
  revert Hrun. apply (keeps_forEach grown grown_refl grown_trans f l Hgrow).
Qed.

Lemma forEach_settled {A} (f : A -> M unit) l s :
  (forall x, x ∈ l -> f x s = (Return tt, s)) -> forEach f l s = (Return tt, s).
Proof.
  induction l as [|y l IH]; intros Hall; [reflexivity|].
  cbn [forEach]. unfold bind. rewrite (Hall y) by apply list_elem_of_here.
  apply IH. intros x Hx. apply Hall. now apply list_elem_of_further.
Qed.

Lemma forEach_throws {A} (f : A -> M unit) l x :
  x ∈ l -> (forall s, exists e s', f x s = (Throw e, s')) ->
  forall s, exists e s', forEach f l s = (Throw e, s').
Proof.
  intros Hx Hthrows. induction l as [|y l IH]; [now apply elem_of_nil in Hx|].
  intros s. cbn [forEach]. unfold bind.
  destruct (f y s) as [[[]|e] s1] eqn:Hy; [|eauto].
  apply elem_of_cons in Hx as [->|Hx]; [|now apply IH].
  destruct (Hthrows s) as (e & s' & He). congruence.
Qed.

Lemma get_stable el T s0 o s1 s2 :
  AKObjectManager.get el T s0 = (Return o, s1) -> grown s1 s2 ->
  AKObjectManager.get el T s2 = (Return o, s2).
Proof.
  intros Hget (Hcls & Hkeep & _).
  destruct (get_inv _ _ _ _ _ Hget) as (Hid & HT & _).
  destruct (get_found_or_made _ _ _ _ _ Hget) as (c & Hsel & Hsame & Hat & _).
  apply (get_hit el T s2 c o Hid HT).
  - rewrite (selectClass_transfer el T s0 s2), Hsel; [reflexivity|].
    eapply sameClasses_trans; eassumption.
  - rewrite (key_same c s1 s2 Hcls). now apply Hkeep.
Qed.

Lemma resolve_returns el T s s' :
  (AKObjectManager.get el T ;;; ret tt) s = (Return tt, s') <->
  exists o, AKObjectManager.get el T s = (Return o, s').
Proof.
  unfold bind, ret. destruct (AKObjectManager.get el T s) as [[o|e] s1]; split.
  - intros [= <-]. eauto.
  - now intros [o' [= _ <-]].
  - discriminate.
  - now intros [o' [=]].
Qed.

Lemma resolve_stable el T s0 s1 s2 :
  (AKObjectManager.get el T ;;; ret tt) s0 = (Return tt, s1) -> grown s1 s2 ->
  (AKObjectManager.get el T ;;; ret tt) s2 = (Return tt, s2).
Proof.
  intros [o Hget]%resolve_returns Hgrown. apply resolve_returns. exists o.
  now apply (get_stable el T s0 o s1 s2).
Qed.

Lemma resolve_grown el T : keeps grown (AKObjectManager.get el T ;;; ret tt).
Proof.
  apply (keeps_bind grown grown_trans); [apply get_grown|].
  intros o. apply (keeps_ret grown grown_refl).
Qed.

Lemma enhance_forEach el s :
  AKObjectManager.enhance el s =
  forEach (fun T => AKObjectManager.get el T ;;; ret tt) (declared el) s.
Proof.
  unfold AKObjectManager.enhance, declared, hasAttribute, getAttribute.
  destruct (el_attributes el !! "ak-component-class") as [n|] eqn:Hn.
  - rewrite bool_decide_eq_true_2 by eauto. cbn [option_list app forEach]. reflexivity.
  - rewrite bool_decide_eq_false_2 by (intros [? ?]; discriminate).
    cbn [option_list app]. reflexivity.
Qed.

Lemma enhance_grown el : keeps grown (AKObjectManager.enhance el).
Proof.
  intros s r s'. rewrite enhance_forEach.
  apply (keeps_forEach grown grown_refl grown_trans). intros T. apply resolve_grown.
Qed.

Lemma enhance_stable el s0 s1 s2 :
  AKObjectManager.enhance el s0 = (Return tt, s1) -> grown s1 s2 ->
  AKObjectManager.enhance el s2 = (Return tt, s2).
Proof.
  rewrite !enhance_forEach. intros Hrun Hgrown. apply forEach_settled. intros T HT.
  apply (resolve_stable el T s1 s1 s2); [|exact Hgrown].
  revert T HT. apply (forEach_settles _ (declared el) (resolve_grown el) (resolve_stable el) s0).
  exact Hrun.
Qed.

Lemma get_empty_name el s :
  exists e, AKObjectManager.get el "" s = (Throw e, s).
Proof.
  unfold AKObjectManager.get, bind, lift, assert, assert_msg.
  destruct (isNonEmptyStr (Some (el_id el))); eauto.
Qed.

Lemma splitSpace_app a b :
  Str.splitSpace (a +:+ String " " b) = Str.splitSpace a ++ Str.splitSpace b.
Proof.
  induction a as [|c a IH].
  - rewrite append_nil, splitSpace_cons. reflexivity.
  - rewrite append_cons, !splitSpace_cons, IH. destruct (Ascii.eqb c " "); [reflexivity|].
    pose proof (splitSpace_nonempty a) as Hne.
    destruct (Str.splitSpace a); [contradiction | reflexivity].
Qed.

End Settling.

(** X16.  If [enhance] returns on an element, then enhancing it again
    changes nothing and returns; every name the element declares (its
    component class, then the tokens of its visual-behavior list) then
    has its instance, which [get] returns without changing the state;
    and [enhance] still returns without changing anything in every
    later state that has only grown (no deletion, no change of the
    catalogs). *)
Theorem enhance_is_idempotent (el : Element) (s s' : State) :
  AKObjectManager.enhance el s = (Return tt, s') ->
  AKObjectManager.enhance el s' = (Return tt, s') /\
  (forall T, T ∈ declared el -> exists o, AKObjectManager.get el T s' = (Return o, s')) /\
  (forall s2, grown s' s2 -> AKObjectManager.enhance el s2 = (Return tt, s2)).
Proof.
  intros Hrun. split; [|split].
  - apply (enhance_stable el s s' s' Hrun), grown_refl.
  - intros T HT. apply resolve_returns. revert T HT.
    apply (forEach_settles _ (declared el) (resolve_grown el) (resolve_stable el) s).
    now rewrite <- enhance_forEach.
  - intros s2. now apply (enhance_stable el s s' s2).
Qed.

(** X16 on the node [tab1] with its two types. *)
Lemma enhance_is_idempotent_witness :
  AKObjectManager.enhance tab1 tab1Enhanced = (Return tt, tab1Enhanced) /\
  exists o, AKObjectManager.get tab1 "Keys" tab1Enhanced = (Return o, tab1Enhanced).
Proof.
  assert (AKObjectManager.enhance tab1
            (snd ((ClassRegistry.register AKUiClassesRegistry "CloseElementButton"
                     AKUiCloseElementButton ;;;
                   ClassRegistry.register AKUiClassesRegistry "Keys" Keys) initial)) =
          (Return tt, tab1Enhanced)) as H by (vm_compute; reflexivity).
  destruct (enhance_is_idempotent tab1 _ _ H) as (Hagain & Hall & _).
  split; [exact Hagain|]. apply Hall. vm_compute. apply list_elem_of_further, list_elem_of_here.
Defined.

(** X17.  [enhance] throws on every element whose visual-behavior list
    has an empty token, in every state: the empty token reaches [get],
    whose assertion on the type name fails.  An attribute value with a
    space in it splits into the tokens of the part before the space
    followed by those of the part after it, so this happens whenever the
    value of [ak-ui-classes] starts or ends with a space or has two
    spaces in a row. *)
Theorem enhance_rejects_an_empty_token (el : Element) :
  ("" ∈ getListAttribute el "ak-ui-classes" ->
   forall s, exists e s', AKObjectManager.enhance el s = (Throw e, s')) /\
  (forall a b, getAttribute el "ak-ui-classes" = Some (a +:+ String " " b) ->
     getListAttribute el "ak-ui-classes" = Str.splitSpace a ++ Str.splitSpace b /\
     (a = "" \/ b = "" \/ (exists b', b = String " " b') ->
      forall s, exists e s', AKObjectManager.enhance el s = (Throw e, s'))).
Proof.
  assert ("" ∈ getListAttribute el "ak-ui-classes" ->
          forall s, exists e s', AKObjectManager.enhance el s = (Throw e, s')) as Hempty.
  { intros Hin s. rewrite enhance_forEach.
    apply (forEach_throws _ (declared el) ""); [apply elem_of_app; now right|].
    intros s0. unfold bind. destruct (get_empty_name el s0) as [e ->]. eauto. }
  split; [exact Hempty|]. intros a b Hatt.
  assert (getListAttribute el "ak-ui-classes" = Str.splitSpace a ++ Str.splitSpace b) as Hlist.
  { unfold getListAttribute, listAttribute. rewrite Hatt, <- splitSpace_app.
    destruct a; [now rewrite append_nil | now rewrite append_cons]. }
  split; [exact Hlist|]. intros Hshape. apply Hempty. rewrite Hlist. apply elem_of_app.
  destruct Hshape as [-> | [-> | [b' ->]]].
  - left. apply list_elem_of_here.
  - right. apply list_elem_of_here.
  - right. rewrite splitSpace_cons. apply list_elem_of_here.
Qed.

(** X17 on the node [panel2], whose token list ends with a space. *)
Lemma enhance_rejects_an_empty_token_witness :
  exists e s', AKObjectManager.enhance panel2 withTabPanel = (Throw e, s').
Proof.
  apply (proj1 (enhance_rejects_an_empty_token panel2)).
  vm_compute. apply list_elem_of_further, list_elem_of_here.
Defined.

(** X18.  [enhanceElement] enhances the elements of the subtree in
    document order (an element before its children, the children from
    first to last): it is the loop of [enhance] over that list.  If it
    returns, every element of the subtree is enhanced and running it
    again changes nothing; if it throws, it has stopped at the first
    element whose [enhance] throws, with that error, the elements before
    it being enhanced. *)
Theorem enhanceElement_walks_in_document_order (t : Subtree) (s : State) :
  enhanceElement t s = forEach AKObjectManager.enhance (preorder t) s /\
  (forall s', enhanceElement t s = (Return tt, s') ->
     enhanceElement t s' = (Return tt, s') /\
     (forall el, el ∈ preorder t -> AKObjectManager.enhance el s' = (Return tt, s'))) /\
  (forall e s', enhanceElement t s = (Throw e, s') ->
     exists pre el post s1,
       preorder t = pre ++ el :: post /\
       forEach AKObjectManager.enhance pre s = (Return tt, s1) /\
       AKObjectManager.enhance el s1 = (Throw e, s')).
Proof.
  split; [apply enhanceElement_forEach|]. rewrite !enhanceElement_forEach. split.
  - intros s' Hrun.
    assert (forall el, el ∈ preorder t -> AKObjectManager.enhance el s' = (Return tt, s')) as Hall.
    { apply (forEach_settles _ (preorder t) enhance_grown enhance_stable s). exact Hrun. }
    split; [|exact Hall]. rewrite enhanceElement_forEach. now apply forEach_settled.
  - generalize (preorder t). intros l. revert s. induction l as [|x l IH]; intros s e s';
      [discriminate|].
    cbn [forEach]. unfold bind.
    destruct (AKObjectManager.enhance x s) as [[[]|e1] s1] eqn:Hx.
    + intros Hrest. destruct (IH _ _ _ Hrest) as (pre & el & post & s2 & -> & Hpre & Hel).
      exists (x :: pre), el, post, s2. split; [reflexivity|]. split; [|exact Hel].
      cbn [forEach]. unfold bind. now rewrite Hx.
    + intros [= <- <-]. exists [], x, l, s. repeat split. exact Hx.
Qed.

(** ** Initialising an instance *)

Section Initialising.



End Initialising.


(** ** The teardown as a fold *)

Section Removing.




Lemma aborted_in_log s c : c ∈ abortedControllers s <-> Abort c ∈ host_log s.
Proof.
  unfold abortedControllers. rewrite list_elem_of_omap. split.
  - intros (h & Hh & Hc). destruct h; try discriminate. now injection Hc as ->.
  - intros Hc. now exists (Abort c).
Qed.

End Removing.


(** X21.  From a state whose controllers are in order, once [get] has
    returned an instance for an element, [listenerAdded] on the element
    returns a new controller, held for the element's identity and not
    aborted; [AKObjectManager.delete] of the element then aborts it,
    leaves no controller held for the identity, and the controllers are
    still in order. *)
Theorem subscription_is_cancelled_with_the_node (el : Element) (T : string)
    (s s1 : State) (o : AKInstance) :
  controllersInOrder s ->
  AKObjectManager.get el T s = (Return o, s1) ->
  exists s2,
    listenerAdded el s1 = (Return (next_controller s1), s2) /\
    next_controller s1 ∈ held s2 (Str.toLowerCase (el_id el)) /\
    (Abort (next_controller s1) ∉ host_log s2) /\
    Abort (next_controller s1) ∈ host_log (snd (AKObjectManager.delete el s2)) /\
    held (snd (AKObjectManager.delete el s2)) (Str.toLowerCase (el_id el)) = [] /\
    controllersInOrder (snd (AKObjectManager.delete el s2)).
Proof.
  intros Hs Hget.
  assert (controllersInOrder s1) as Hs1.
  { revert Hs. apply (keeps_get (fun a b => controllersInOrder a -> controllersInOrder b))
      with (el := el) (T := T) (r := Return o); auto.
    - apply controllersInOrder_logged.
    - intros aId st _. apply controllersInOrder_listening.
    - intros o0 aId st _ _ _ _. apply controllersInOrder_made. }
  destruct (get_found_or_made _ _ _ _ _ Hget) as (c & _ & _ & Hat & _).
  assert (is_Some (registry_items s1 !! Str.toLowerCase (el_id el))) as Hentry.
  { unfold instanceAt in Hat. destruct (registry_items s1 !! _); [eauto | discriminate]. }
  exists (listening (Str.toLowerCase (el_id el)) s1).
  pose proof (controllersInOrder_listening (Str.toLowerCase (el_id el)) s1 Hs1) as Hs2.
  assert (next_controller s1 ∈ held (listening (Str.toLowerCase (el_id el)) s1)
                                  (Str.toLowerCase (el_id el))) as Hheld.
  { rewrite held_listening, decide_True by reflexivity.
    apply elem_of_app. right. apply list_elem_of_here. }
  split; [now apply addListenerController_listening|]. split; [exact Hheld|].
  rewrite delete_unfold. cbn [snd]. split; [|split; [|split]].
  - rewrite <- aborted_in_log. now apply Hs2 in Hheld.
  - apply aborted_in_log. rewrite aborted_purged. apply elem_of_app. now right.
  - rewrite held_purged. destruct (decide _); [reflexivity | contradiction].
  - now apply controllersInOrder_purged.
Qed.

(** X21 on the node [panel1]: controller 0 is handed out, then aborted. *)
Lemma subscription_is_cancelled_with_the_node_witness :
  exists s2,
    listenerAdded panel1 (snd (AKObjectManager.get panel1 "TabPanel" withTabPanel)) =
      (Return 0, s2) /\
    Abort 0 ∈ host_log (snd (AKObjectManager.delete panel1 s2)).
Proof.
  assert (AKObjectManager.get panel1 "TabPanel" withTabPanel =
          (Return (mkInstance 0 AKUiTabPanel panel1),
           snd (AKObjectManager.get panel1 "TabPanel" withTabPanel))) as H
    by (vm_compute; reflexivity).
  assert (controllersInOrder withTabPanel) as Hs.
  { apply (controllersInOrder_classes initial); try reflexivity.
    apply controllersInOrder_initial. }
  destruct (subscription_is_cancelled_with_the_node _ _ _ _ _ Hs H)
    as (s2 & Hl & _ & _ & Ha & _).
  exists s2. split; [exact Hl | exact Ha].
Defined.

(** ** What the constructor has checked *)

Section Checks.





End Checks.



